(** * DeepseaAgent logger: a shallow embedding of [devlop_home/logger.py]

    The development follows the module top to bottom: the string and value
    model of the interpreter, the level registry ([LEVELS], [should_log]),
    the value extractor, the frontend simplifier and the dispatcher
    ([color_print] and the seven entry points).

    Python strings are sequences of Unicode code points; they are modelled
    as lists of code points, and the literals of the source are written as
    UTF-8 text and decoded by [u]. *)

From Stdlib Require Import List ZArith NArith Bool Lia Ascii String.
From Stdlib Require Import DecimalString Floats.
Import ListNotations.

(** ** Strings *)

Module Str.

Definition pystr := list N.

Definition byte_val (c : ascii) : N := N_of_ascii c.

(** Continuation byte payload (low six bits). *)
Definition cont (c : ascii) : N := N.land (byte_val c) 63.

(** UTF-8 decoding of a literal. *)
Fixpoint u (s : string) : pystr :=
  match s with
  | EmptyString => []
  | String b0 s0 =>
    let n0 := byte_val b0 in
    if (n0 <? 128)%N then n0 :: u s0
    else match s0 with
    | EmptyString => [n0]
    | String b1 s1 =>
      if (n0 <? 224)%N then (N.land n0 31 * 64 + cont b1)%N :: u s1
      else match s1 with
      | EmptyString => [n0]
      | String b2 s2 =>
        if (n0 <? 240)%N
        then (N.land n0 15 * 4096 + cont b1 * 64 + cont b2)%N :: u s2
        else match s2 with
        | EmptyString => [n0]
        | String b3 s3 =>
          (N.land n0 7 * 262144 + cont b1 * 4096 + cont b2 * 64 + cont b3)%N
            :: u s3
        end
      end
    end
  end.

(** [a == b] on strings. *)
Fixpoint eqb (a b : pystr) : bool :=
  match a, b with
  | [], [] => true
  | x :: a', y :: b' => N.eqb x y && eqb a' b'
  | _, _ => false
  end.

(** [s.startswith(p)]. *)
Fixpoint startswith (p s : pystr) : bool :=
  match p, s with
  | [], _ => true
  | x :: p', y :: s' => N.eqb x y && startswith p' s'
  | _ :: _, [] => false
  end.

(** [s.endswith(p)]. *)
Definition endswith (p s : pystr) : bool := startswith (rev p) (rev s).

(** [p in s]: [p] occurs in [s] as a contiguous run. *)
Fixpoint contains (p s : pystr) : bool :=
  startswith p s
  || match s with
     | [] => false
     | _ :: s' => contains p s'
     end.

(** [sep.join(l)]. *)
Fixpoint join (sep : pystr) (l : list pystr) : pystr :=
  match l with
  | [] => []
  | [x] => x
  | x :: l' => x ++ sep ++ join sep l'
  end.

(** [s.split(sep)] for a non-empty separator: pieces between the
    non-overlapping occurrences of [sep], found left to right.  [skip] counts
    the code points of a matched separator still to be passed over. *)
Fixpoint split_go (sep : pystr) (skip : nat) (s : pystr) : list pystr :=
  match s with
  | [] => [[]]
  | c :: s' =>
    match skip with
    | S k => split_go sep k s'
    | O =>
      if startswith sep s then [] :: split_go sep (List.length sep - 1) s'
      else match split_go sep 0 s' with
           | p :: ps => (c :: p) :: ps
           | [] => [[c]]
           end
    end
  end.

Definition split (sep s : pystr) : list pystr := split_go sep 0 s.

(** The code points for which [str.isspace] holds; [str.strip()] removes
    exactly these. *)
Definition isspace (c : N) : bool :=
  ((9 <=? c) && (c <=? 13) || (28 <=? c) && (c <=? 32)
   || (c =? 133) || (c =? 160) || (c =? 5760)
   || (8192 <=? c) && (c <=? 8202)
   || (c =? 8232) || (c =? 8233) || (c =? 8239) || (c =? 8287)
   || (c =? 12288))%N.

Fixpoint lstrip (s : pystr) : pystr :=
  match s with
  | [] => []
  | c :: s' => if isspace c then lstrip s' else s
  end.

Definition rstrip (s : pystr) : pystr := rev (lstrip (rev s)).

Definition strip (s : pystr) : pystr := rstrip (lstrip s).

(** [str(z)] for an [int]. *)
Definition of_Z (z : Z) : pystr := u (NilZero.string_of_int (Z.to_int z)).

End Str.

Import Str.

Arguments u : simpl never.

(** ** Exceptions

    Every exception the module can meet derives from [Exception], so a
    handler [except Exception] catches each of them. *)

Inductive exn := ValueError | KeyError | OSError | OtherError.

Inductive res (A : Type) : Type :=
| Ret (a : A)
| Exc (e : exn).

Arguments Ret {A} a.
Arguments Exc {A} e.

Definition bind {A B} (m : res A) (f : A -> res B) : res B :=
  match m with
  | Ret a => f a
  | Exc e => Exc e
  end.

(** [try: m  except Exception: h]. *)
Definition catch {A} (m : res A) (h : res A) : res A :=
  match m with
  | Ret a => Ret a
  | Exc _ => h
  end.

Notation "x <- m ;; k" := (bind m (fun x => k))
  (at level 61, m at next level, right associativity).

(** [map(f, l)] consumed left to right; the first exception ends it. *)
Section MapM.

Variables (A B : Type) (f : A -> res B).

Fixpoint mapM (l : list A) : res (list B) :=
  match l with
  | [] => Ret []
  | x :: l' => y <- f x ;; ys <- mapM l' ;; Ret (y :: ys)
  end.

End MapM.

Arguments mapM {A B} f l.

(** ** Values

    The objects a log call receives.  [VObj] stands for an instance of any
    other class: all the logger does with one is call [str] or [repr] on
    it, so it is given by the outcome of these two calls.  The limits of the
    interpreter (recursion depth, digits of an integer) are left out:
    printing a value built from the built-in types always returns. *)

Record object := { obj_str : res pystr; obj_repr : res pystr }.

#[local] Set Warnings "-register-all".

Inductive value :=
| VNone
| VBool (b : bool)
| VInt (z : Z)
| VFloat (f : float)
| VStr (s : pystr)
| VList (l : list value)
| VTuple (l : list value)
| VDict (d : list (value * value))
| VObj (o : object).

(** A [dict] keeps its entries in insertion order. *)
Definition dict := list (value * value).

(** What the interpreter and its library supply: [repr] of a [float] and of
    a [str], and [json.loads]. *)
Record runtime := {
  float_repr : float -> pystr;
  str_repr : pystr -> pystr;
  json_loads : pystr -> res value
}.

Section Stringify.

Variable rt : runtime.

(** [repr(v)]. *)
Fixpoint py_repr (v : value) : res pystr :=
  match v with
  | VNone => Ret (u "None")
  | VBool b => Ret (if b then u "True" else u "False")
  | VInt z => Ret (of_Z z)
  | VFloat f => Ret (float_repr rt f)
  | VStr s => Ret (str_repr rt s)
  | VList l =>
    rs <- mapM py_repr l ;;
    Ret (u "[" ++ join (u ", ") rs ++ u "]")
  | VTuple l =>
    rs <- mapM py_repr l ;;
    Ret (match rs with
         | [r] => u "(" ++ r ++ u ",)"
         | _ => u "(" ++ join (u ", ") rs ++ u ")"
         end)
  | VDict d =>
    rs <- mapM (fun kv => rk <- py_repr (fst kv) ;; rx <- py_repr (snd kv) ;;
                          Ret (rk ++ u ": " ++ rx)) d ;;
    Ret (u "{" ++ join (u ", ") rs ++ u "}")
  | VObj o => obj_repr o
  end.

(** [str(v)]: a [str] is itself, an object answers through [__str__], every
    built-in type prints its [repr]. *)
Definition py_str (v : value) : res pystr :=
  match v with
  | VStr s => Ret s
  | VObj o => obj_str o
  | _ => py_repr v
  end.

End Stringify.

(** [isinstance(v, str)]. *)
Definition is_str (v : value) : bool :=
  match v with VStr _ => true | _ => false end.

(** [isinstance(v, (int, float))]; [bool] is a subclass of [int]. *)
Definition is_number (v : value) : bool :=
  match v with VInt _ | VBool _ | VFloat _ => true | _ => false end.

(** [isinstance(v, (int, float, str))]. *)
Definition is_scalar (v : value) : bool := is_number v || is_str v.

(** ** Level registry *)

Definition LEVELS : list pystr :=
  [u "TRACE"; u "DEBUG"; u "INFO"; u "WARNING"; u "ERROR"; u "SUCCESS";
   u "SPECIAL"].

(** [l.index(x)]: position of the first element equal to [x];
    [ValueError] when there is none. *)
Fixpoint index (x : pystr) (l : list pystr) : res nat :=
  match l with
  | [] => Exc ValueError
  | y :: l' => if Str.eqb y x then Ret 0 else i <- index x l' ;; Ret (S i)
  end.

Definition should_log (level target_level : pystr) : res bool :=
  i <- index level LEVELS ;;
  j <- index target_level LEVELS ;;
  Ret (j <=? i).

(** ** Frontend simplification *)

(** [name in d] and [d[name]] for a string key: [Some] the value stored
    under it, [None] when the key is absent.  Only a string key equals a
    string. *)
Definition is_key (name : pystr) (k : value) : bool :=
  match k with
  | VStr s => Str.eqb s name
  | _ => false
  end.

Fixpoint dict_get (name : pystr) (d : dict) : option value :=
  match d with
  | [] => None
  | (k, v) :: d' => if is_key name k then Some v else dict_get name d'
  end.

Definition SUFFIXES : list pystr :=
  [u "_sum"; u "_avg"; u "_min"; u "_max"; u "_count"].

(** [for key in keys: if key in r: return str(r[key])]: the value the loop
    returns on, if any. *)
Fixpoint first_key (keys : list pystr) (r : dict) : option value :=
  match keys with
  | [] => None
  | key :: keys' =>
    match dict_get key r with
    | Some v => Some v
    | None => first_key keys' r
    end
  end.

(** [for v in r.values(): if isinstance(v, (str, int, float)): return str(v)]. *)
Fixpoint first_scalar (r : dict) : option value :=
  match r with
  | [] => None
  | (_, v) :: r' => if is_scalar v then Some v else first_scalar r'
  end.

(** [for k, v in d.items(): if isinstance(k, str) and k.endswith(suffix):
    return str(v)]. *)
Fixpoint scan_suffix (suffix : pystr) (d : dict) : option value :=
  match d with
  | [] => None
  | (k, v) :: d' =>
    match k with
    | VStr s => if endswith suffix s then Some v else scan_suffix suffix d'
    | _ => scan_suffix suffix d'
    end
  end.

(** [for suffix in suffixes: for k, v in d.items(): ...]. *)
Fixpoint first_suffix (suffixes : list pystr) (d : dict) : option value :=
  match suffixes with
  | [] => None
  | suffix :: rest =>
    match scan_suffix suffix d with
    | Some v => Some v
    | None => first_suffix rest d
    end
  end.

Section Simplifier.

Variable rt : runtime.

Definition _extract_value_from_tool_result (function_result : value)
  : res pystr :=
  let parsed :=
    match function_result with
    | VStr s =>
      match json_loads rt s with
      | Ret data => inr data
      | Exc _ => inl s
      end
    | data => inr data
    end in
  match parsed with
  | inl s => Ret s
  | inr (VDict d0) =>
    let d := match dict_get (u "output") d0 with
             | Some (VDict o) => o
             | _ => d0
             end in
    match dict_get (u "result") d with
    | Some (VDict r) =>
      match first_key [u "by_seconds"; u "seconds"] r with
      | Some v => py_str rt v
      | None =>
        match first_scalar r with
        | Some v => py_str rt v
        | None => py_str rt (VDict r)
        end
      end
    | Some r => py_str rt r
    | None =>
      match first_suffix SUFFIXES d with
      | Some v => py_str rt v
      | None =>
        if (List.length d =? 1)%nat
        then match d with
             | (_, v) :: _ => py_str rt v
             | [] => Exc OtherError
             end
        else py_str rt (VDict d)
      end
    end
  | inr data => py_str rt data
  end.

(** The three markers of the label rules and the three of the answer text. *)
Definition TOOL_MARK : pystr := u "【工具函数".
Definition RESULT_MARK : pystr := u "执行结果】".
Definition ANSWER_MARK : pystr := u "【原子问题答案】".
Definition CALL_MARK : pystr := u "调用".
Definition PARAM_MARK : pystr := u "参数".
Definition STOP : pystr := u "。".

(** The inner [join_list]: the items joined by a full-width comma, or
    [str(lst)] when an item cannot be printed. *)
Definition join_item (v : value) : res pystr :=
  if is_number v then py_str rt v
  else match v with
       | VStr s => Ret s
       | _ => py_str rt v
       end.

Definition join_list (lst : list value) : res pystr :=
  catch (items <- mapM join_item lst ;; Ret (join (u "，") items))
        (py_str rt (VList lst)).

(** The [while] loop over [arg_list]: the argument is the part of the list
    from position [i] on, the result the strings appended to [parts]. *)
Fixpoint walk (arg_list : list value) : res (list pystr) :=
  match arg_list with
  | [] => Ret []
  | a :: rest =>
    match a, rest with
    | VStr s, VList b :: rest' =>
      j <- join_list b ;; parts <- walk rest' ;; Ret ((s ++ j) :: parts)
    | _, _ =>
      if is_scalar a
      then p <- py_str rt a ;; parts <- walk rest ;; Ret (p :: parts)
      else walk rest
    end
  end.

(** The body of the [try] block. *)
Definition simplify_rules (args : list value) : res pystr :=
  match args with
  | [] => Ret []
  | a0 :: _ =>
    head <- (match a0 with VStr s => Ret s | _ => py_str rt a0 end) ;;
    if contains TOOL_MARK head && contains RESULT_MARK head then
      val <- (match args with
              | _ :: a1 :: _ => _extract_value_from_tool_result a1
              | _ => Ret []
              end) ;;
      Ret (head ++ val)
    else
      match args with
      | _ :: a1 :: _ =>
        if contains ANSWER_MARK head then
          text <- py_str rt a1 ;;
          let simple :=
            if contains CALL_MARK text && contains PARAM_MARK text
               && contains STOP text
            then strip (last (split STOP text) [])
            else text in
          Ret (head ++ simple)
        else parts <- walk args ;; Ret (join (u " ") parts)
      | _ => parts <- walk args ;; Ret (join (u " ") parts)
      end
  end.

(** The [except Exception] branch: [' '.join(map(str, args))]. *)
Definition simplify_fallback (args : list value) : res pystr :=
  strs <- mapM (py_str rt) args ;; Ret (join (u " ") strs).

Definition _simplify_for_frontend (level : pystr) (args : list value)
  : res pystr :=
  match args with
  | [] => Ret []
  | _ => catch (simplify_rules args) (simplify_fallback args)
  end.

End Simplifier.

(** ** Dispatcher

    A log call talks to three collaborators: the push channel, the console
    and the log file.  A call is modelled by the list of what reached them,
    in order, and by how it ended. *)

(** The payload of a [log_message] event. *)
Record push_event := {
  ev_level : pystr;
  ev_message : pystr;
  ev_color : pystr
}.

Inductive effect :=
| Emit (name : pystr) (ev : push_event)
| StdoutWrite (text : pystr)
| FileAppend (path : pystr) (text : pystr).

(** What the process finds around it during one call: the clock, and for
    each collaborator whether it fails and how. *)
Record env := {
  now : pystr;
  emit_fault : option exn;
  stdout_fault : pystr -> option exn;
  open_fault : pystr -> option exn;
  write_fault : pystr -> pystr -> option exn
}.

(** The module globals. *)
Record globals := {
  socketio : bool;
  console_level : pystr;
  file_level : pystr;
  log_file_path : option pystr
}.

Definition io (A : Type) : Type := (list effect * res A)%type.

Definition io_ret {A} (a : A) : io A := ([], Ret a).

Definition io_bind {A B} (m : io A) (f : A -> io B) : io B :=
  match m with
  | (t, Ret a) => let (t', r) := f a in (t ++ t', r)
  | (t, Exc e) => (t, Exc e)
  end.

Definition lift {A} (r : res A) : io A := ([], r).

Notation "x <-- m ;; k" := (io_bind m (fun x => k))
  (at level 61, m at next level, right associativity).

(** [socketio.emit(name, ev)]: the call is made, and may then fail. *)
Definition emit (e : env) (name : pystr) (ev : push_event) : io unit :=
  ([Emit name ev],
   match emit_fault e with
   | Some x => Exc x
   | None => Ret tt
   end).

(** [print(text, end=end_, file=sys.stdout)]. *)
Definition print (e : env) (text end_ : pystr) : io unit :=
  match stdout_fault e (text ++ end_) with
  | Some x => ([], Exc x)
  | None => ([StdoutWrite (text ++ end_)], Ret tt)
  end.

(** [with open(path, "a", encoding="utf-8") as f: f.write(text)]. *)
Definition append_file (e : env) (path text : pystr) : io unit :=
  match open_fault e path with
  | Some x => ([], Exc x)
  | None =>
    match write_fault e path text with
    | Some x => ([], Exc x)
    | None => ([FileAppend path text], Ret tt)
    end
  end.

Definition ESC : pystr := [27%N].

Definition NEWLINE : pystr := [10%N].

Definition COLORS : list (pystr * pystr) :=
  [(u "red", ESC ++ u "[91m"); (u "green", ESC ++ u "[92m");
   (u "yellow", ESC ++ u "[93m"); (u "blue", ESC ++ u "[94m");
   (u "magenta", ESC ++ u "[95m"); (u "cyan", ESC ++ u "[96m");
   (u "white", ESC ++ u "[97m"); (u "grey", ESC ++ u "[90m");
   (u "reset", ESC ++ u "[0m")].

(** [COLORS[color]]. *)
Fixpoint lookup (key : pystr) (table : list (pystr * pystr)) : res pystr :=
  match table with
  | [] => Exc KeyError
  | (k, v) :: table' => if Str.eqb k key then Ret v else lookup key table'
  end.

(** [level in {"INFO", "SPECIAL"}]. *)
Definition forwarded (level : pystr) : bool :=
  Str.eqb level (u "INFO") || Str.eqb level (u "SPECIAL").

(** [strftime(...)[:-3]]. *)
Definition drop_last3 (s : pystr) : pystr := firstn (List.length s - 3) s.

Section Dispatcher.

Variable rt : runtime.
Variable e : env.
Variable g : globals.

(** The line both sinks print. *)
Definition log_line (level : pystr) (strs : list pystr) (sep : pystr)
  : pystr :=
  drop_last3 (now e) ++ u " [" ++ level ++ u "] " ++ join sep strs.

Definition color_print (level color : pystr) (args : list value)
    (sep end_ : pystr) : io unit :=
  strs <-- lift (mapM (py_str rt) args) ;;
  let log_message := log_line level strs sep in
  _ <-- (if forwarded level && socketio g then
           simplified <-- lift (_simplify_for_frontend rt level args) ;;
           emit e (u "log_message")
                {| ev_level := level; ev_message := simplified;
                   ev_color := color |}
         else io_ret tt) ;;
  to_console <-- lift (should_log level (console_level g)) ;;
  _ <-- (if to_console then
           c <-- lift (lookup color COLORS) ;;
           r <-- lift (lookup (u "reset") COLORS) ;;
           print e (c ++ log_message ++ r) end_
         else io_ret tt) ;;
  match log_file_path g with
  | Some ((_ :: _) as path) =>
    to_file <-- lift (should_log level (file_level g)) ;;
    if to_file then append_file e path (log_message ++ NEWLINE)
    else io_ret tt
  | _ => io_ret tt
  end.

(** The entry points, one per severity. *)
Definition trace args sep end_ :=
  color_print (u "TRACE") (u "white") args sep end_.
Definition debug args sep end_ :=
  color_print (u "DEBUG") (u "grey") args sep end_.
Definition info args sep end_ :=
  color_print (u "INFO") (u "blue") args sep end_.
Definition warning args sep end_ :=
  color_print (u "WARNING") (u "yellow") args sep end_.
Definition error args sep end_ :=
  color_print (u "ERROR") (u "red") args sep end_.
Definition success args sep end_ :=
  color_print (u "SUCCESS") (u "green") args sep end_.
Definition special args sep end_ :=
  color_print (u "SPECIAL") (u "cyan") args sep end_.

End Dispatcher.

(** ** The interpreter

    Models of the three library functions of [runtime] as CPython has them:
    [repr] of a [float] and of a [str], and [json.loads]. *)

Module CPython.

Local Open Scope Z_scope.

(** *** [repr] of a float

    The shortest decimal digit string that reads back as the same double,
    the closest to it among those, printed in fixed notation when the
    decimal point falls within (-4, 16] and with an exponent otherwise. *)

Definition pow10 (k : Z) : Z := 10 ^ Z.max k 0.

(** Number of decimal digits of [n > 0]. *)
Definition ndigits (n : Z) : Z := Z.of_nat (List.length (of_Z n)).

(** A positive double as the fraction [X/D], with the bounds [L/D] and
    [H/D] of the interval of reals that round to it; [even] tells whether
    the bounds themselves round to it. *)
Record interval := { iX : Z; iL : Z; iH : Z; iD : Z; even : bool }.

Definition interval_of (m : positive) (e : Z) : interval :=
  let m := Zpos m in
  let low := if (m =? 2 ^ 52) && (-1074 <? e) then 4 * m - 1 else 4 * m - 2 in
  let sc := 2 ^ Z.max (e - 2) 0 in
  {| iX := 4 * m * sc; iL := low * sc; iH := (4 * m + 2) * sc;
     iD := 2 ^ Z.max (2 - e) 0; even := Z.even m |}.

(** The largest [p] with [10^p <= X/D]. *)
Definition dec_exponent (X D : Z) : Z :=
  if D <=? X then ndigits (X / D) - 1
  else let t := ndigits (D / X) in
       if X * 10 ^ (t - 1) =? D then - (t - 1) else - t.

(** Is [d * 10^k] within the interval? *)
Definition inside (i : interval) (d k : Z) : bool :=
  let c := d * pow10 k * iD i in
  let lo := iL i * pow10 (- k) in
  let hi := iH i * pow10 (- k) in
  if even i then (lo <=? c) && (c <=? hi) else (lo <? c) && (c <? hi).

(** The best [n]-digit candidate [(d, k)], standing for [d * 10^k]. *)
Definition candidate (i : interval) (p n : Z) : option (Z * Z) :=
  let k := p - n + 1 in
  let num := iX i * pow10 (- k) in
  let den := iD i * pow10 k in
  let lo := num / den in
  let hi := lo + 1 in
  let dl := num - lo * den in
  let dh := hi * den - num in
  let first := if (dl <? dh) || ((dl =? dh) && Z.even lo) then lo else hi in
  let second := if first =? lo then hi else lo in
  if inside i first k then Some (first, k)
  else if inside i second k then Some (second, k)
  else None.

Fixpoint shortest (i : interval) (p : Z) (n : Z) (fuel : nat) : Z * Z :=
  match fuel with
  | O => (iX i * pow10 (- (p - 16)) / (iD i * pow10 (p - 16)), p - 16)
  | S fuel' =>
    match candidate i p n with
    | Some dk => dk
    | None => shortest i p (n + 1) fuel'
    end
  end.

(** Digits without trailing zeros, and the position of the decimal point
    counted from their left end. *)
Fixpoint rstrip0 (fuel : nat) (d k : Z) : Z * Z :=
  match fuel with
  | O => (d, k)
  | S fuel' =>
    if (d mod 10 =? 0) && (0 <? d) then rstrip0 fuel' (d / 10) (k + 1)
    else (d, k)
  end.

Definition zeros (n : Z) : pystr := repeat 48%N (Z.to_nat n).

Definition format_r (digits : pystr) (decpt : Z) : pystr :=
  let nd := Z.of_nat (List.length digits) in
  if (decpt <=? -4) || (16 <? decpt) then
    let e := decpt - 1 in
    let mant := match digits with
                | [] => []
                | c :: [] => [c]
                | c :: tl => c :: u "." ++ tl
                end in
    let ex := of_Z (Z.abs e) in
    mant ++ u "e" ++ (if e <? 0 then u "-" else u "+")
         ++ (if Z.abs e <? 10 then u "0" else []) ++ ex
  else if decpt <=? 0 then u "0." ++ zeros (- decpt) ++ digits
  else if nd <=? decpt then digits ++ zeros (decpt - nd) ++ u ".0"
  else firstn (Z.to_nat decpt) digits ++ u "." ++ skipn (Z.to_nat decpt) digits.

Definition float_repr (f : float) : pystr :=
  match Prim2SF f with
  | S754_nan => u "nan"
  | S754_infinity s => if s then u "-inf" else u "inf"
  | S754_zero s => if s then u "-0.0" else u "0.0"
  | S754_finite s m e =>
    let i := interval_of m e in
    let p := dec_exponent (iX i) (iD i) in
    let (d0, k0) := shortest i p 1 17 in
    let (d, k) := rstrip0 20 d0 k0 in
    let digits := of_Z d in
    (if s then u "-" else [])
      ++ format_r digits (Z.of_nat (List.length digits) + k)
  end.

(** *** [repr] of a string *)

(** Code points that are not printable: controls, separators other than
    the space, format characters, surrogates and private use.  Code points
    left unassigned by the interpreter's Unicode database are not listed. *)
Definition NONPRINTABLE : list (N * N) :=
  [(0, 31); (127, 160); (173, 173); (1536, 1541); (1564, 1564);
   (1757, 1757); (1807, 1807); (2192, 2193); (2274, 2274); (5760, 5760);
   (6158, 6158); (8192, 8207); (8232, 8239); (8287, 8292); (8294, 8303);
   (12288, 12288); (55296, 63743); (64976, 65007); (65279, 65279);
   (65529, 65531); (65534, 65535); (69821, 69821); (69837, 69837);
   (78896, 78911); (113824, 113827); (119155, 119162); (917505, 917505);
   (917536, 917631); (983040, 1114111)]%N.

Definition isprintable (c : N) : bool :=
  negb (existsb (fun r => (fst r <=? c) && (c <=? snd r))%N NONPRINTABLE).

Definition hex_digit (n : N) : N := (if n <? 10 then 48 + n else 87 + n)%N.

(** [width] lowercase hex digits of [n]. *)
Fixpoint hex (width : nat) (n : N) : pystr :=
  match width with
  | O => []
  | S w => hex w (n / 16) ++ [hex_digit (n mod 16)]
  end.

Definition repr_char (quote c : N) : pystr :=
  (if (c =? quote) || (c =? 92) then [92; c]
   else if c =? 9 then u "\t"
   else if c =? 10 then u "\n"
   else if c =? 13 then u "\r"
   else if (c <? 32) || (c =? 127) then u "\x" ++ hex 2 c
   else if c <? 127 then [c]
   else if isprintable c then [c]
   else if c <=? 255 then u "\x" ++ hex 2 c
   else if c <=? 65535 then u "\u" ++ hex 4 c
   else u "\U" ++ hex 8 c)%N.

Definition str_repr (s : pystr) : pystr :=
  let quote := if existsb (N.eqb 39) s && negb (existsb (N.eqb 34) s)
               then 34%N else 39%N in
  quote :: flat_map (repr_char quote) s ++ [quote].

(** *** Reading a float: the double nearest to [M * 10^E], ties to even *)

Definition round_ratio (N D : Z) : spec_float :=
  let g := Z.log2 N - Z.log2 D in
  let l := if (if 0 <=? g then D * 2 ^ g <=? N else D <=? N * 2 ^ (- g))
           then g else g - 1 in
  let e := Z.max (-1074) (l - 52) in
  let N' := N * 2 ^ Z.max (- e) 0 in
  let D' := D * 2 ^ Z.max e 0 in
  let q := N' / D' in
  let r := N' - q * D' in
  let q := if (D' <? 2 * r) || ((D' =? 2 * r) && Z.odd q) then q + 1 else q in
  let (q, e) := if q =? 2 ^ 53 then (2 ^ 52, e + 1) else (q, e) in
  match q with
  | Zpos m => if 1024 <? e + 53 then S754_infinity false
              else S754_finite false m e
  | _ => S754_zero false
  end.

Definition float_of_decimal (neg : bool) (M E : Z) : float :=
  let x :=
    if M =? 0 then S754_zero false
    else if 400 <? E + ndigits M then S754_infinity false
    else if E + ndigits M <? -400 then S754_zero false
    else round_ratio (M * pow10 E) (pow10 (- E)) in
  let f := SF2Prim x in
  if neg then (- f)%float else f.

(** *** [json.loads]: the decoder of the [json] module *)

Definition is_ws (c : N) : bool :=
  ((c =? 32) || (c =? 9) || (c =? 10) || (c =? 13))%N.

Fixpoint skip_ws (s : pystr) : pystr :=
  match s with
  | c :: s' => if is_ws c then skip_ws s' else s
  | [] => []
  end.

Definition is_digit (c : N) : bool := ((48 <=? c) && (c <=? 57))%N.

Fixpoint span_digits (s : pystr) : pystr * pystr :=
  match s with
  | c :: s' => if is_digit c then let (d, r) := span_digits s' in (c :: d, r)
               else ([], s)
  | [] => ([], [])
  end.

Definition digits_value (d : pystr) : Z :=
  fold_left (fun acc c => 10 * acc + (Z.of_N c - 48)) d 0.

(** The number at the head of [s], if there is one. *)
Definition match_number (s : pystr) : option (value * pystr) :=
  let (neg, s0) := match s with
                   | 45%N :: s' => (true, s')
                   | _ => (false, s)
                   end in
  let int_part :=
    match s0 with
    | c :: s1 =>
      if (c =? 48)%N then Some ([c], s1)
      else if is_digit c then let (d, r) := span_digits s1 in Some (c :: d, r)
      else None
    | [] => None
    end in
  match int_part with
  | None => None
  | Some (ds, s1) =>
    let (frac, s2) :=
      match s1 with
      | 46%N :: c :: _ =>
        if is_digit c then span_digits (tl s1) else ([], s1)
      | _ => ([], s1)
      end in
    let has_frac := negb (Nat.eqb (List.length frac) 0) in
    let '(has_exp, ex, s3) :=
      match s2 with
      | c :: s' =>
        if ((c =? 101) || (c =? 69))%N then
          let (eneg, s'') := match s' with
                             | 45%N :: r => (true, r)
                             | 43%N :: r => (false, r)
                             | _ => (false, s')
                             end in
          let (ed, r) := span_digits s'' in
          match ed with
          | [] => (false, 0, s2)
          | _ => (true, if eneg then - digits_value ed else digits_value ed, r)
          end
        else (false, 0, s2)
      | [] => (false, 0, s2)
      end in
    if has_frac || has_exp
    then Some (VFloat (float_of_decimal neg (digits_value (ds ++ frac))
                         (ex - Z.of_nat (List.length frac))), s3)
    else Some (VInt (if neg then - digits_value ds else digits_value ds), s3)
  end.

Definition hex_value (c : N) : option N :=
  (if is_digit c then Some (c - 48)
   else if (97 <=? c) && (c <=? 102) then Some (c - 87)
   else if (65 <=? c) && (c <=? 70) then Some (c - 55)
   else None)%N.

(** The four hex digits of a [\uXXXX] escape. *)
Definition hex4 (s : pystr) : option (N * pystr) :=
  match s with
  | a :: b :: c :: d :: r =>
    match hex_value a, hex_value b, hex_value c, hex_value d with
    | Some a, Some b, Some c, Some d =>
      Some (a * 4096 + b * 256 + c * 16 + d, r)%N
    | _, _, _, _ => None
    end
  | _ => None
  end.

Definition simple_escape (c : N) : option N :=
  (if (c =? 34) || (c =? 92) || (c =? 47) then Some c
   else if c =? 98 then Some 8
   else if c =? 102 then Some 12
   else if c =? 110 then Some 10
   else if c =? 114 then Some 13
   else if c =? 116 then Some 9
   else None)%N.

Definition cons_fst (c : N) (r : option (pystr * pystr))
  : option (pystr * pystr) :=
  match r with
  | Some (t, rest) => Some (c :: t, rest)
  | None => None
  end.

(** The string whose opening quote has just been read (strict mode). *)
Fixpoint scanstring (fuel : nat) (s : pystr) : option (pystr * pystr) :=
  match fuel with
  | O => None
  | S fuel' =>
    match s with
    | [] => None
    | c :: s1 =>
      if (c =? 34)%N then Some ([], s1)
      else if (c <=? 31)%N then None
      else if negb (c =? 92)%N then cons_fst c (scanstring fuel' s1)
      else match s1 with
      | [] => None
      | x :: s2 =>
        if negb (x =? 117)%N then
          match simple_escape x with
          | Some y => cons_fst y (scanstring fuel' s2)
          | None => None
          end
        else match hex4 s2 with
        | None => None
        | Some (hi, s3) =>
          if ((55296 <=? hi) && (hi <=? 56319))%N then
            match s3 with
            | 92%N :: 117%N :: s4 =>
              match hex4 s4 with
              | None => None
              | Some (lo, s5) =>
                if ((56320 <=? lo) && (lo <=? 57343))%N
                then cons_fst (65536 + (hi - 55296) * 1024 + (lo - 56320))%N
                              (scanstring fuel' s5)
                else cons_fst hi (scanstring fuel' s3)
              end
            | _ => cons_fst hi (scanstring fuel' s3)
            end
          else cons_fst hi (scanstring fuel' s3)
        end
      end
    end
  end.

(** [d[key] = v] on an insertion-ordered dict. *)
Fixpoint dict_set (key : pystr) (v : value) (d : dict) : dict :=
  match d with
  | [] => [(VStr key, v)]
  | (k, x) :: d' =>
    if is_key key k then (k, v) :: d' else (k, x) :: dict_set key v d'
  end.

Fixpoint scan_once (fuel : nat) (s : pystr) : option (value * pystr) :=
  match fuel with
  | O => None
  | S fuel' =>
    match s with
    | [] => None
    | c :: s1 =>
      if (c =? 34)%N then
        match scanstring (List.length s) s1 with
        | Some (t, r) => Some (VStr t, r)
        | None => None
        end
      else if (c =? 123)%N then
        match skip_ws s1 with
        | 125%N :: r => Some (VDict [], r)
        | s2 => parse_object fuel' s2 []
        end
      else if (c =? 91)%N then
        match skip_ws s1 with
        | 93%N :: r => Some (VList [], r)
        | s2 => parse_array fuel' s2 []
        end
      else if startswith (u "null") s then Some (VNone, skipn 4 s)
      else if startswith (u "true") s then Some (VBool true, skipn 4 s)
      else if startswith (u "false") s then Some (VBool false, skipn 5 s)
      else if startswith (u "NaN") s then Some (VFloat nan, skipn 3 s)
      else if startswith (u "Infinity") s
      then Some (VFloat infinity, skipn 8 s)
      else if startswith (u "-Infinity") s
      then Some (VFloat neg_infinity, skipn 9 s)
      else match_number s
    end
  end
with parse_array (fuel : nat) (s : pystr) (acc : list value)
  : option (value * pystr) :=
  match fuel with
  | O => None
  | S fuel' =>
    match scan_once fuel' s with
    | None => None
    | Some (v, r) =>
      match skip_ws r with
      | 93%N :: r' => Some (VList (acc ++ [v]), r')
      | 44%N :: r' => parse_array fuel' (skip_ws r') (acc ++ [v])
      | _ => None
      end
    end
  end
with parse_object (fuel : nat) (s : pystr) (acc : dict)
  : option (value * pystr) :=
  match fuel with
  | O => None
  | S fuel' =>
    match s with
    | 34%N :: s1 =>
      match scanstring (List.length s) s1 with
      | None => None
      | Some (key, r) =>
        match skip_ws r with
        | 58%N :: r1 =>
          match scan_once fuel' (skip_ws r1) with
          | None => None
          | Some (v, r2) =>
            match skip_ws r2 with
            | 125%N :: r' => Some (VDict (dict_set key v acc), r')
            | 44%N :: r' => parse_object fuel' (skip_ws r') (dict_set key v acc)
            | _ => None
            end
          end
        | _ => None
        end
      end
    | _ => None
    end
  end.

Definition json_loads (s : pystr) : res value :=
  match s with
  | 65279%N :: _ => Exc ValueError
  | _ =>
    match scan_once (2 * List.length s + 2) (skip_ws s) with
    | Some (v, r) =>
      match skip_ws r with
      | [] => Ret v
      | _ => Exc ValueError
      end
    | None => Exc ValueError
    end
  end.

End CPython.

Definition cpython : runtime :=
  {| float_repr := CPython.float_repr;
     str_repr := CPython.str_repr;
     json_loads := CPython.json_loads |}.

(** ** The data model of the specification *)

(** The values a log call is meant to receive: strings, numbers, sequences
    and nested key-value structures, with [None] and booleans; no instance
    of another class, at any depth. *)
Fixpoint plain (v : value) : bool :=
  match v with
  | VObj _ => false
  | VList l | VTuple l => forallb plain l
  | VDict d => forallb (fun kv => plain (fst kv) && plain (snd kv)) d
  | _ => true
  end.

(** [str(v)] returns. *)
Definition printable (rt : runtime) (v : value) : Prop :=
  exists s, py_str rt v = Ret s.

(** ** The value extractor as the specification words it

    Steps 1 to 7 of the extractor's description, each written with the
    list library rather than with the loops of the source. *)

Section ExtractSpec.

Variable rt : runtime.

Definition key_ends (suffix : pystr) (kv : value * value) : bool :=
  match fst kv with
  | VStr k => endswith suffix k
  | _ => false
  end.

(** Step 4: the value under [result]. *)
Definition spec_result (r : value) : res pystr :=
  match r with
  | VDict m =>
    match dict_get (u "by_seconds") m, dict_get (u "seconds") m with
    | Some v, _ => py_str rt v
    | None, Some v => py_str rt v
    | None, None =>
      match find (fun kv => is_scalar (snd kv)) m with
      | Some kv => py_str rt (snd kv)
      | None => py_str rt r
      end
    end
  | _ => py_str rt r
  end.

(** Step 5: the first suffix, in the fixed order, that some key ends in,
    and the first entry whose key ends in it. *)
Definition spec_aggregate (d : dict) : option value :=
  match find (fun suffix => existsb (key_ends suffix) d) SUFFIXES with
  | Some suffix => option_map snd (find (key_ends suffix) d)
  | None => None
  end.

(** Steps 3 to 7, on a mapping. *)
Definition spec_mapping (d0 : list (value * value)) : res pystr :=
  let d := match dict_get (u "output") d0 with
           | Some (VDict o) => o
           | _ => d0
           end in
  match dict_get (u "result") d with
  | Some r => spec_result r
  | None =>
    match spec_aggregate d with
    | Some v => py_str rt v
    | None =>
      match d with
      | [(_, v)] => py_str rt v
      | _ => py_str rt (VDict d)
      end
    end
  end.

(** Steps 1 and 2. *)
Definition extract_spec (payload : value) : res pystr :=
  match payload with
  | VStr s =>
    match json_loads rt s with
    | Exc _ => Ret s
    | Ret (VDict d) => spec_mapping d
    | Ret parsed => py_str rt parsed
    end
  | VDict d => spec_mapping d
  | _ => py_str rt payload
  end.

End ExtractSpec.

(** [t] is [s] trimmed of surrounding whitespace. *)
Definition trimmed (s t : pystr) : Prop :=
  exists l r,
    s = l ++ t ++ r
    /\ forallb isspace l = true /\ forallb isspace r = true
    /\ match t with
       | [] => True
       | c :: _ => isspace c = false /\ isspace (last t c) = false
       end.

(** ** What reaches the collaborators *)

Definition is_emit (x : effect) : bool :=
  match x with
  | Emit _ _ => true
  | _ => false
  end.

(** The events sent over the push channel, and the writes to the sinks. *)
Definition pushes (t : list effect) : list effect := filter is_emit t.

Definition sink_writes (t : list effect) : list effect :=
  filter (fun x => negb (is_emit x)) t.

(** [g] with another push channel setting. *)
Definition with_socketio (b : bool) (g : globals) : globals :=
  {| socketio := b; console_level := console_level g;
     file_level := file_level g; log_file_path := log_file_path g |}.

(** The line a log call prints: timestamp, bracketed severity, and the
    printed arguments joined by the separator. *)
Definition full_line (e : env) (level : pystr) (strs : list pystr)
    (sep : pystr) : pystr :=
  drop_last3 (now e) ++ u " [" ++ level ++ u "] " ++ join sep strs.

(** What the console receives from a completed call. *)
Definition console_write (e : env) (g : globals) (level color : pystr)
    (strs : list pystr) (sep end_ : pystr) : list effect :=
  match should_log level (console_level g), lookup color COLORS with
  | Ret true, Ret c =>
    [StdoutWrite ((c ++ full_line e level strs sep ++ ESC ++ u "[0m") ++ end_)]
  | _, _ => []
  end.

(** What the log file receives from a completed call. *)
Definition file_write (e : env) (g : globals) (level : pystr)
    (strs : list pystr) (sep : pystr) : list effect :=
  match log_file_path g with
  | Some ((_ :: _) as path) =>
    match should_log level (file_level g) with
    | Ret true => [FileAppend path (full_line e level strs sep ++ NEWLINE)]
    | _ => []
    end
  | _ => []
  end.

(** The event a forwarded call sends. *)
Definition push_write (g : globals) (level color message : pystr)
  : list effect :=
  if forwarded level && socketio g
  then [Emit (u "log_message")
          {| ev_level := level; ev_message := message; ev_color := color |}]
  else [].

(** The label and the payload of the end-to-end example. *)
Definition DURATION_LABEL : pystr := u "【工具函数duration_calculator执行结果】".

Definition quoted (s : string) : pystr := 34%N :: u s ++ [34%N].

Definition DURATION_PAYLOAD : pystr :=
  u "{" ++ quoted "result" ++ u ":{" ++ quoted "by_seconds" ++ u ":1149.0}}".

(** The push stage, the console stage and the file stage of a call go
    through. *)
Definition push_ok (e : env) (g : globals) (level : pystr) : Prop :=
  forwarded level && socketio g = true -> emit_fault e = None.

Definition console_ok (e : env) (g : globals) (level color : pystr)
    (strs : list pystr) (sep end_ : pystr) : Prop :=
  match should_log level (console_level g) with
  | Ret true =>
    exists c,
      lookup color COLORS = Ret c
      /\ stdout_fault e ((c ++ full_line e level strs sep ++ ESC ++ u "[0m")
                         ++ end_) = None
  | Ret false => True
  | Exc _ => False
  end.

Definition file_ok (e : env) (g : globals) (level : pystr)
    (strs : list pystr) (sep : pystr) : Prop :=
  match log_file_path g with
  | Some ((_ :: _) as path) =>
    match should_log level (file_level g) with
    | Ret true =>
      open_fault e path = None
      /\ write_fault e path (full_line e level strs sep ++ NEWLINE) = None
    | Ret false => True
    | Exc _ => False
    end
  | _ => True
  end.

(** The default thresholds with a log file and no push channel, and three
    environments: one where every collaborator works, one where the log
    file cannot be opened, one where the console cannot be written. *)
Definition STARTED : globals :=
  {| socketio := false; console_level := u "DEBUG"; file_level := u "TRACE";
     log_file_path := Some (u "devlop_output/logs/log_2025-01-02 03-04-05.log") |}.

Definition HEALTHY : env :=
  {| now := u "2025-01-02 03:04:05.678901"; emit_fault := None;
     stdout_fault := fun _ => None; open_fault := fun _ => None;
     write_fault := fun _ _ => None |}.

Definition BROKEN_DISK : env :=
  {| now := u "2025-01-02 03:04:05.678901"; emit_fault := None;
     stdout_fault := fun _ => None; open_fault := fun _ => Some OSError;
     write_fault := fun _ _ => None |}.

Definition BROKEN_CONSOLE : env :=
  {| now := u "2025-01-02 03:04:05.678901"; emit_fault := None;
     stdout_fault := fun _ => Some OSError; open_fault := fun _ => None;
     write_fault := fun _ _ => None |}.

(** An environment where the push channel rejects every event. *)
Definition BROKEN_CHANNEL : env :=
  {| now := u "2025-01-02 03:04:05.678901"; emit_fault := Some OtherError;
     stdout_fault := fun _ => None; open_fault := fun _ => None;
     write_fault := fun _ _ => None |}.

(** ** Induction on values, through the containers *)

Section ValueInduction.

Variable P : value -> Prop.

Hypothesis HNone : P VNone.
Hypothesis HBool : forall b, P (VBool b).
Hypothesis HInt : forall z, P (VInt z).
Hypothesis HFloat : forall f, P (VFloat f).
Hypothesis HStr : forall s, P (VStr s).
Hypothesis HList : forall l, Forall P l -> P (VList l).
Hypothesis HTuple : forall l, Forall P l -> P (VTuple l).
Hypothesis HDict :
  forall d, Forall (fun kv => P (fst kv) /\ P (snd kv)) d -> P (VDict d).
Hypothesis HObj : forall o, P (VObj o).

Fixpoint value_ind' (v : value) : P v :=
  match v with
  | VNone => HNone
  | VBool b => HBool b
  | VInt z => HInt z
  | VFloat f => HFloat f
  | VStr s => HStr s
  | VList l =>
    HList l ((fix go (l : list value) : Forall P l :=
              match l with
              | [] => Forall_nil _
              | x :: l' => Forall_cons x (value_ind' x) (go l')
              end) l)
  | VTuple l =>
    HTuple l ((fix go (l : list value) : Forall P l :=
               match l with
               | [] => Forall_nil _
               | x :: l' => Forall_cons x (value_ind' x) (go l')
               end) l)
  | VDict d =>
    HDict d ((fix go (d : list (value * value))
              : Forall (fun kv => P (fst kv) /\ P (snd kv)) d :=
              match d with
              | [] => Forall_nil _
              | kv :: d' =>
                Forall_cons kv
                  (conj (value_ind' (fst kv)) (value_ind' (snd kv))) (go d')
              end) d)
  | VObj o => HObj o
  end.

End ValueInduction.

(** An object that has a [repr] and whose [__str__] raises. *)
Definition mute : value :=
  VObj {| obj_str := Exc OtherError; obj_repr := Ret (u "<mute>") |}.

(** ** Configuration

    [init] and [init_logger_with_flask] set the module globals.  [init]
    talks to the operating system: it creates the log directory, reads the
    clock and joins paths. *)

(** The module globals as the module body leaves them. *)
Definition DEFAULTS : globals :=
  {| socketio := false; console_level := u "DEBUG"; file_level := u "TRACE";
     log_file_path := None |}.

Definition logs_path : pystr := u "devlop_output/logs".

(** What [init] finds around it: the local time as
    [strftime("%Y-%m-%d %H-%M-%S")] prints it, whether creating a directory
    fails, and [os.path.join]. *)
Record os_env := {
  localtime : pystr;
  makedirs_fault : pystr -> option exn;
  path_join : pystr -> pystr -> pystr
}.

Inductive os_effect :=
| MakeDirs (path : pystr).

(** [x in LEVELS]. *)
Definition is_level (x : pystr) : bool := existsb (Str.eqb x) LEVELS.

(** [init(log_filename, console_log_level, file_log_level)]: the new
    globals, or the exception that left them as they were. *)
Definition init (o : os_env) (log_filename : option pystr)
    (console_log_level file_log_level : pystr) (g : globals)
  : list os_effect * res globals :=
  match makedirs_fault o logs_path with
  | Some x => ([], Exc x)
  | None =>
    let path :=
      match log_filename with
      | Some ((_ :: _) as name) => path_join o logs_path name
      | _ => path_join o logs_path (u "log_" ++ localtime o ++ u ".log")
      end in
    ([MakeDirs logs_path],
     Ret {| socketio := socketio g;
            console_level := if is_level console_log_level
                             then console_log_level else console_level g;
            file_level := if is_level file_log_level
                          then file_log_level else file_level g;
            log_file_path := Some path |})
  end.

(** [init_logger_with_flask(socketio_main)]; the argument tells whether a
    channel is passed rather than [None]. *)
Definition init_logger_with_flask (socketio_main : bool) (g : globals)
  : globals :=
  {| socketio := socketio_main; console_level := console_level g;
     file_level := file_level g; log_file_path := log_file_path g |}.

(** The globals a process can reach: the defaults, changed by the two
    configuration functions. *)
Inductive configured : globals -> Prop :=
| configured_defaults : configured DEFAULTS
| configured_init o fn cl fl g t g' :
    configured g -> init o fn cl fl g = (t, Ret g') -> configured g'
| configured_flask b g :
    configured g -> configured (init_logger_with_flask b g).

(** [os.path.join] on a POSIX system, for two components. *)
Module Posix.

Definition join (a b : pystr) : pystr :=
  if startswith (u "/") b then b
  else if Str.eqb a [] || endswith (u "/") a then a ++ b
  else a ++ u "/" ++ b.

End Posix.

(** The severities with the color their entry point prints in. *)
Definition ENTRY_POINTS : list (pystr * pystr) :=
  [(u "TRACE", u "white"); (u "DEBUG", u "grey"); (u "INFO", u "blue");
   (u "WARNING", u "yellow"); (u "ERROR", u "red"); (u "SUCCESS", u "green");
   (u "SPECIAL", u "cyan")].

(** [x] is a fault of one of the collaborators. *)
Definition collaborator_fault (e : env) (x : exn) : Prop :=
  emit_fault e = Some x
  \/ (exists text, stdout_fault e text = Some x)
  \/ (exists path, open_fault e path = Some x)
  \/ (exists path text, write_fault e path text = Some x).

(** [g] with other thresholds. *)
Definition with_file_level (fl : pystr) (g : globals) : globals :=
  {| socketio := socketio g; console_level := console_level g;
     file_level := fl; log_file_path := log_file_path g |}.

(** The entry points with the severity and the color each one passes to
    [color_print]. *)
Definition ENTRY_TABLE
  : list ((runtime -> env -> globals -> list value -> pystr -> pystr
           -> io unit) * (pystr * pystr)) :=
  [(trace, (u "TRACE", u "white")); (debug, (u "DEBUG", u "grey"));
   (info, (u "INFO", u "blue")); (warning, (u "WARNING", u "yellow"));
   (error, (u "ERROR", u "red")); (success, (u "SUCCESS", u "green"));
   (special, (u "SPECIAL", u "cyan"))].

(** No collaborator fails. *)
Definition fault_free (e : env) : Prop :=
  emit_fault e = None
  /\ (forall text, stdout_fault e text = None)
  /\ (forall path, open_fault e path = None)
  /\ (forall path text, write_fault e path text = None).

(** * Properties *)

(** Case analysis on every test the dispatcher makes. *)
Ltac dispatch :=
  repeat match goal with
         | |- context [match ?x with _ => _ end] =>
           lazymatch x with
           | context [match _ with _ => _ end] => fail
           | _ => destruct x eqn:?
           end
         end.

(** ** Strings *)

Lemma eqb_eq (a b : pystr) : Str.eqb a b = true <-> a = b.
Proof.
  revert b; induction a as [|x a IH]; intros [|y b]; simpl; split;
    try congruence; try reflexivity.
  - intros H; apply andb_prop in H as [H1 H2].
    apply N.eqb_eq in H1; apply IH in H2; congruence.
  - intros H; injection H as -> ->.
    rewrite N.eqb_refl; simpl; now apply IH.
Qed.

Lemma eqb_refl (a : pystr) : Str.eqb a a = true.
Proof. now apply eqb_eq. Qed.

(** ** The exception monad *)

Lemma bind_ret_r {A} (m : res A) : (x <- m ;; Ret x) = m.
Proof. now destruct m. Qed.

(** ** Level registry *)

(** C7: for two severities [a] and [b] at positions [i] and [j] of the
    seven-name ordering TRACE < DEBUG < INFO < WARNING < ERROR < SUCCESS <
    SPECIAL, [should_log a b] returns, and returns true exactly when
    [i >= j]; [should_log("ERROR", "INFO")] is true and
    [should_log("TRACE", "DEBUG")] is false. *)
Theorem should_log_rank :
  LEVELS = [u "TRACE"; u "DEBUG"; u "INFO"; u "WARNING"; u "ERROR";
            u "SUCCESS"; u "SPECIAL"]
  /\ (forall a b i j,
        nth_error LEVELS i = Some a ->
        nth_error LEVELS j = Some b ->
        should_log a b = Ret (j <=? i)
        /\ (should_log a b = Ret true <-> j <= i))
  /\ should_log (u "ERROR") (u "INFO") = Ret true
  /\ should_log (u "TRACE") (u "DEBUG") = Ret false.
Proof.
  split; [reflexivity|]. split; [|split; reflexivity].
  intros a b i j Ha Hb.
  assert (E : should_log a b = Ret (j <=? i)).
  { do 8 (try destruct i as [|i]); simpl in Ha; try discriminate Ha;
      injection Ha as <-;
      do 8 (try destruct j as [|j]); simpl in Hb; try discriminate Hb;
      injection Hb as <-; reflexivity. }
  split; [exact E|]. rewrite E. split.
  - intros H; injection H as H. now apply Nat.leb_le.
  - intros H. f_equal. now apply Nat.leb_le.
Qed.

Lemma should_log_rank_witness :
  should_log (u "SUCCESS") (u "WARNING") = Ret (3 <=? 5)
  /\ (should_log (u "SUCCESS") (u "WARNING") = Ret true <-> 3 <= 5).
Proof.
  apply (proj1 (proj2 should_log_rank) (u "SUCCESS") (u "WARNING") 5 3);
    reflexivity.
Defined.

(** ** The simplifier on a single string *)

Section SimplifierFacts.

Variable rt : runtime.

Lemma label_is_str (a0 : value) :
  match a0 with VStr s => Ret s | _ => py_str rt a0 end = py_str rt a0.
Proof. now destruct a0. Qed.

Lemma simplify_single (level s : pystr) :
  _simplify_for_frontend rt level [VStr s] = Ret s.
Proof.
  unfold _simplify_for_frontend, simplify_rules, bind at 1.
  destruct (contains TOOL_MARK s && contains RESULT_MARK s).
  - unfold bind, catch. now rewrite app_nil_r.
  - reflexivity.
Qed.

(** C8: a string [s] that the simplifier returned, passed again as the
    only argument, comes back unchanged. *)
Theorem simplify_idempotent (level level' : pystr) (args : list value)
    (s : pystr) :
  _simplify_for_frontend rt level args = Ret s ->
  _simplify_for_frontend rt level' [VStr s] = Ret s.
Proof. intros _. apply simplify_single. Qed.

(** C10: a first argument that contains both tool-result markers, with no
    second argument, is returned unchanged: the extracted value is the
    empty string. *)
Theorem tool_result_without_payload (level head : pystr) :
  contains TOOL_MARK head = true ->
  contains RESULT_MARK head = true ->
  simplify_rules rt [VStr head] = Ret (head ++ [])
  /\ _simplify_for_frontend rt level [VStr head] = Ret head.
Proof.
  intros H1 H2. split; [|apply simplify_single].
  unfold simplify_rules, bind at 1. now rewrite H1, H2.
Qed.

End SimplifierFacts.

Lemma simplify_idempotent_witness :
  _simplify_for_frontend cpython (u "SPECIAL")
    [VStr (u "【工具函数sum执行结果】42")]
  = Ret (u "【工具函数sum执行结果】42").
Proof.
  apply (simplify_idempotent cpython (u "INFO") (u "SPECIAL")
           [VStr (u "【工具函数sum执行结果】"); VInt 42]).
  reflexivity.
Defined.

Lemma tool_result_without_payload_witness :
  simplify_rules cpython [VStr (u "【工具函数sum执行结果】")]
  = Ret (u "【工具函数sum执行结果】" ++ [])
  /\ _simplify_for_frontend cpython (u "INFO")
       [VStr (u "【工具函数sum执行结果】")]
     = Ret (u "【工具函数sum执行结果】").
Proof.
  apply (tool_result_without_payload cpython (u "INFO")); reflexivity.
Defined.

(** ** Printing *)

Lemma mapM_total {A B} (f : A -> res B) (l : list A) :
  Forall (fun x => exists y, f x = Ret y) l -> exists ys, mapM f l = Ret ys.
Proof.
  induction 1 as [|x l [y Hy] _ [ys Hys]]; simpl.
  - now exists [].
  - rewrite Hy, Hys. now exists (y :: ys).
Qed.

Lemma mapM_ret_inv {A B} (f : A -> res B) (l : list A) (ys : list B) :
  mapM f l = Ret ys -> Forall (fun x => exists y, f x = Ret y) l.
Proof.
  revert ys; induction l as [|x l IH]; intros ys H; [constructor|].
  simpl in H. destruct (f x) as [y|] eqn:E; [|discriminate].
  destruct (mapM f l) as [zs|] eqn:E'; [|discriminate].
  constructor; [now exists y | now apply (IH zs)].
Qed.

Section Printing.

Variable rt : runtime.

Lemma plain_repr (v : value) :
  plain v = true -> exists s, py_repr rt v = Ret s.
Proof.
  induction v as [| | | | |l IH|l IH|d IH|o] using value_ind';
    simpl; intros Hp; try (eexists; reflexivity); try discriminate.
  - destruct (@mapM_total _ _ (py_repr rt) l) as [ys ->].
    + rewrite forallb_forall in Hp. rewrite Forall_forall in *. auto.
    + simpl. eexists; reflexivity.
  - destruct (@mapM_total _ _ (py_repr rt) l) as [ys ->].
    + rewrite forallb_forall in Hp. rewrite Forall_forall in *. auto.
    + simpl. eexists; reflexivity.
  - match goal with |- context [mapM ?f d] =>
      destruct (@mapM_total _ _ f d) as [ys ->] end.
    + rewrite forallb_forall in Hp. rewrite Forall_forall in *.
      intros kv Hin. destruct (IH kv Hin) as [Hk Hx].
      apply Hp, andb_prop in Hin as [Pk Px].
      destruct (Hk Pk) as [sk ->], (Hx Px) as [sx ->].
      simpl. eexists; reflexivity.
    + simpl. eexists; reflexivity.
Qed.

(** Every value of the data model can be printed. *)
Lemma plain_printable (v : value) : plain v = true -> printable rt v.
Proof.
  intros Hp. unfold printable.
  destruct v; try (apply (plain_repr _ Hp)); try discriminate.
  now exists s.
Qed.

Lemma printable_all (args : list value) :
  Forall (printable rt) args -> exists strs, mapM (py_str rt) args = Ret strs.
Proof. apply mapM_total. Qed.

End Printing.

(** ** The value extractor *)

Lemma first_scalar_find (r : dict) :
  first_scalar r = option_map snd (find (fun kv => is_scalar (snd kv)) r).
Proof.
  induction r as [|[k v] r IH]; simpl; [reflexivity|].
  now destruct (is_scalar v).
Qed.

Lemma scan_suffix_find (suffix : pystr) (d : dict) :
  scan_suffix suffix d = option_map snd (find (key_ends suffix) d).
Proof.
  induction d as [|[k v] d IH]; simpl; [reflexivity|].
  unfold key_ends at 1; simpl.
  destruct k; try exact IH. now destruct (endswith suffix s).
Qed.

Lemma find_none_existsb {A} (f : A -> bool) (l : list A) :
  find f l = None <-> existsb f l = false.
Proof.
  induction l as [|x l IH]; simpl; [tauto|].
  destruct (f x); simpl; [split; discriminate | exact IH].
Qed.

Lemma first_suffix_find (suffixes : list pystr) (d : dict) :
  first_suffix suffixes d
  = match find (fun suffix => existsb (key_ends suffix) d) suffixes with
    | Some suffix => option_map snd (find (key_ends suffix) d)
    | None => None
    end.
Proof.
  induction suffixes as [|suffix rest IH]; simpl; [reflexivity|].
  rewrite scan_suffix_find.
  destruct (find (key_ends suffix) d) as [kv|] eqn:E; simpl.
  - destruct (existsb (key_ends suffix) d) eqn:E'; [now rewrite E|].
    apply find_none_existsb in E'. congruence.
  - apply find_none_existsb in E. now rewrite E.
Qed.

Section ExtractorFacts.

Variable rt : runtime.

Lemma extract_mapping (d0 : dict) :
  _extract_value_from_tool_result rt (VDict d0) = spec_mapping rt d0.
Proof.
  unfold _extract_value_from_tool_result, spec_mapping. cbv zeta.
  match goal with
  | |- context [dict_get (u "result") ?x] => generalize x
  end.
  intros d. destruct (dict_get (u "result") d) as [r|].
  - destruct r as [| | | | | | |m|]; try reflexivity.
    unfold spec_result. simpl first_key.
    destruct (dict_get (u "by_seconds") m); [reflexivity|].
    destruct (dict_get (u "seconds") m); [reflexivity|].
    rewrite first_scalar_find.
    now destruct (find (fun kv => is_scalar (snd kv)) m).
  - unfold spec_aggregate. rewrite first_suffix_find.
    destruct (find (fun suffix => existsb (key_ends suffix) d) SUFFIXES)
      as [suffix|]; simpl.
    + destruct (find (key_ends suffix) d); simpl; [reflexivity|].
      destruct d as [|[k v] [|kv d']]; reflexivity.
    + destruct d as [|[k v] [|kv d']]; reflexivity.
Qed.

Lemma extract_parsed (s : pystr) (data : value) :
  json_loads rt s = Ret data ->
  _extract_value_from_tool_result rt (VStr s)
  = match data with
    | VDict d => spec_mapping rt d
    | _ => py_str rt data
    end.
Proof.
  intros H. destruct data; try (rewrite <- extract_mapping);
    unfold _extract_value_from_tool_result; now rewrite H.
Qed.

Lemma extract_unparsed (s : pystr) (e : exn) :
  json_loads rt s = Exc e ->
  _extract_value_from_tool_result rt (VStr s) = Ret s.
Proof.
  intros H. unfold _extract_value_from_tool_result. now rewrite H.
Qed.

Lemma extract_refines (payload : value) :
  _extract_value_from_tool_result rt payload = extract_spec rt payload.
Proof.
  destruct payload; try reflexivity.
  - simpl. destruct (json_loads rt s) as [data|e] eqn:E.
    + now rewrite (extract_parsed _ _ E).
    + now rewrite (extract_unparsed _ _ E).
  - apply extract_mapping.
Qed.

End ExtractorFacts.

#[local] Set Warnings "-inexact-float".

(** C3: the extractor follows the fixed priority of the description (it
    computes [extract_spec] on every payload, whatever the interpreter),
    and under CPython it returns "1149.0", "42" and "ok" on the three
    payloads of the description. *)
Theorem extractor_priority :
  (forall rt payload,
     _extract_value_from_tool_result rt payload = extract_spec rt payload)
  /\ _extract_value_from_tool_result cpython
       (VDict [(VStr (u "output"),
                VDict [(VStr (u "result"),
                        VDict [(VStr (u "by_seconds"), VFloat 1149.0);
                               (VStr (u "other_unit"), VFloat 19.15)])])])
     = Ret (u "1149.0")
  /\ _extract_value_from_tool_result cpython
       (VDict [(VStr (u "rows_sum"), VInt 42); (VStr (u "label"), VStr (u "x"))])
     = Ret (u "42")
  /\ _extract_value_from_tool_result cpython
       (VDict [(VStr (u "value"), VStr (u "ok"))])
     = Ret (u "ok").
Proof.
  split; [exact extract_refines|].
  repeat split; vm_compute; reflexivity.
Qed.

(** ** Splitting and trimming *)

Lemma contains_char_cons (c x : N) (s : pystr) :
  contains [c] (x :: s) = (N.eqb c x || contains [c] s).
Proof. simpl. now rewrite andb_true_r. Qed.

Lemma contains_char_mid (c : N) (pre tail : pystr) :
  contains [c] (pre ++ c :: tail) = true.
Proof.
  induction pre as [|x pre IH]; simpl app; rewrite contains_char_cons.
  - now rewrite N.eqb_refl.
  - rewrite IH. apply orb_true_r.
Qed.

Lemma split_char_cons (c x : N) (s : pystr) :
  split [c] (x :: s)
  = if N.eqb c x then [] :: split [c] s
    else match split [c] s with
         | p :: ps => (x :: p) :: ps
         | [] => [[x]]
         end.
Proof. unfold split. simpl. now rewrite andb_true_r. Qed.

Lemma split_absent (c : N) (s : pystr) :
  contains [c] s = false -> split [c] s = [s].
Proof.
  induction s as [|x s IH]; [reflexivity|].
  rewrite contains_char_cons, split_char_cons. intros H.
  apply orb_false_elim in H as [H1 H2]. now rewrite H1, (IH H2).
Qed.

(** The pieces of a string that holds a separator: the last one is what
    follows the last separator. *)
Lemma split_pieces (c : N) (pre tail : pystr) :
  contains [c] tail = false ->
  exists p ps, split [c] (pre ++ c :: tail) = p :: ps ++ [tail].
Proof.
  intros H. induction pre as [|x pre (p & ps & IH)]; simpl app;
    rewrite split_char_cons.
  - rewrite N.eqb_refl, (split_absent _ _ H). now exists [], [].
  - rewrite IH. destruct (N.eqb c x).
    + now exists [], (p :: ps).
    + now exists (x :: p), ps.
Qed.

Lemma split_last (c : N) (pre tail : pystr) :
  contains [c] tail = false ->
  last (split [c] (pre ++ c :: tail)) [] = tail.
Proof.
  intros H. destruct (split_pieces c pre tail H) as (p & ps & ->).
  change (p :: ps ++ [tail]) with ((p :: ps) ++ [tail]). apply last_last.
Qed.

Lemma lstrip_spec (s : pystr) :
  exists l, s = l ++ lstrip s /\ forallb isspace l = true
            /\ match lstrip s with
               | [] => True
               | c :: _ => isspace c = false
               end.
Proof.
  induction s as [|x s (l & E & Hl & Hh)].
  - now exists [].
  - simpl. destruct (isspace x) eqn:Hx.
    + exists (x :: l). simpl. rewrite Hx, Hl. now rewrite <- E.
    + exists []. simpl. now rewrite Hx.
Qed.

Lemma forallb_rev {A} (f : A -> bool) (l : list A) :
  forallb f (rev l) = forallb f l.
Proof.
  induction l as [|x l IH]; [reflexivity|].
  simpl. rewrite forallb_app, IH. simpl. rewrite andb_true_r. apply andb_comm.
Qed.

Lemma last_rev_head {A} (x : A) (l : list A) (d : A) :
  last (rev (x :: l)) d = x.
Proof. simpl. now rewrite last_last. Qed.

(** [str.strip()] trims. *)
Lemma strip_trimmed (s : pystr) : trimmed s (strip s).
Proof.
  unfold trimmed, strip, rstrip.
  destruct (lstrip_spec s) as (l & E & Hl & Hh).
  destruct (lstrip_spec (rev (lstrip s))) as (r & E' & Hr & Hh').
  exists l, (rev r). rewrite forallb_rev. repeat split; try assumption.
  - rewrite <- rev_app_distr, <- E', rev_involutive. exact E.
  - destruct (lstrip (rev (lstrip s))) as [|y t] eqn:Et; [exact I|].
    assert (Es : lstrip s = rev (y :: t) ++ rev r).
    { rewrite <- rev_app_distr, <- E'. now rewrite rev_involutive. }
    destruct (rev (y :: t)) as [|c t'] eqn:Er.
    + exfalso. apply (f_equal (@List.length _)) in Er.
      rewrite length_rev in Er. discriminate.
    + split.
      * rewrite Es in Hh. exact Hh.
      * rewrite <- Er, last_rev_head. exact Hh'.
Qed.

(** ** The generic walk *)

Section WalkFacts.

Variable rt : runtime.

Lemma walk_two (a b : value) (rest : list value) :
  walk rt (a :: b :: rest)
  = match a, b with
    | VStr s, VList l =>
      j <- join_list rt l ;; parts <- walk rt rest ;; Ret ((s ++ j) :: parts)
    | _, _ =>
      if is_scalar a
      then p <- py_str rt a ;; parts <- walk rt (b :: rest) ;; Ret (p :: parts)
      else walk rt (b :: rest)
    end.
Proof. destruct a, b; reflexivity. Qed.

Lemma walk_one (a : value) :
  walk rt [a]
  = if is_scalar a then p <- py_str rt a ;; Ret [p] else Ret [].
Proof. destruct a; reflexivity. Qed.

(** A mapping met by the walk adds nothing to [parts], and no pair is
    formed across it. *)
Lemma walk_drops_mapping (d : dict) (post : list value) :
  forall pre,
    walk rt (pre ++ VDict d :: post)
    = (ps <- walk rt pre ;; qs <- walk rt post ;; Ret (ps ++ qs)).
Proof.
  assert (H0 : walk rt (VDict d :: post)
               = (qs <- walk rt post ;; Ret ([] ++ qs))).
  { simpl. now rewrite bind_ret_r. }
  assert (H : forall n pre, List.length pre <= n ->
                walk rt (pre ++ VDict d :: post)
                = (ps <- walk rt pre ;; qs <- walk rt post ;; Ret (ps ++ qs))).
  { induction n as [|n IH]; intros pre Hn.
    - destruct pre; [exact H0 | simpl in Hn; lia].
    - destruct pre as [|a [|b pre]]; [exact H0 | |].
      + simpl app. rewrite walk_two, walk_one, H0.
        destruct a; cbv iota;
          repeat match goal with
                 | |- context [walk rt ?l] => destruct (walk rt l)
                 | |- context [py_str rt ?v] => destruct (py_str rt v)
                 | |- context [is_scalar ?v] => destruct (is_scalar v)
                 end; reflexivity.
      + simpl app. rewrite !walk_two.
        assert (IH1 := IH (b :: pre) ltac:(simpl in *; lia)).
        assert (IH2 := IH pre ltac:(simpl in *; lia)).
        simpl app in IH1.
        destruct a, b; cbv iota; rewrite ?IH1, ?IH2;
          repeat match goal with
                 | |- context [walk rt ?l] => destruct (walk rt l)
                 | |- context [py_str rt ?v] => destruct (py_str rt v)
                 | |- context [join_list rt ?v] => destruct (join_list rt v)
                 | |- context [is_scalar ?v] => destruct (is_scalar v)
                 end; reflexivity. }
  intros pre. now apply (H (List.length pre)).
Qed.

End WalkFacts.

(** ** The label rules *)

Section RuleFacts.

Variable rt : runtime.

(** The body of the [try] block on two arguments or more, once the label is
    printed. *)
Lemma simplify_rules_two (a0 a1 : value) (rest : list value) (head : pystr) :
  py_str rt a0 = Ret head ->
  simplify_rules rt (a0 :: a1 :: rest)
  = if contains TOOL_MARK head && contains RESULT_MARK head then
      val <- _extract_value_from_tool_result rt a1 ;; Ret (head ++ val)
    else if contains ANSWER_MARK head then
      text <- py_str rt a1 ;;
      Ret (head ++ (if contains CALL_MARK text && contains PARAM_MARK text
                       && contains STOP text
                    then strip (last (split STOP text) [])
                    else text))
    else parts <- walk rt (a0 :: a1 :: rest) ;; Ret (join (u " ") parts).
Proof.
  intros H. unfold simplify_rules. rewrite label_is_str, H.
  unfold bind at 1. reflexivity.
Qed.

Lemma simplify_of_rules (level : pystr) (args : list value) (out : pystr) :
  simplify_rules rt args = Ret out ->
  _simplify_for_frontend rt level args = Ret out.
Proof.
  intros H. unfold _simplify_for_frontend. rewrite H.
  now destruct args.
Qed.

Lemma answer_rule_cut (level : pystr) (a0 a1 : value) (rest : list value)
    (head text : pystr) :
  py_str rt a0 = Ret head ->
  py_str rt a1 = Ret text ->
  contains ANSWER_MARK head = true ->
  contains TOOL_MARK head && contains RESULT_MARK head = false ->
  _simplify_for_frontend rt level (a0 :: a1 :: rest)
  = Ret (head ++ (if contains CALL_MARK text && contains PARAM_MARK text
                     && contains STOP text
                  then strip (last (split STOP text) [])
                  else text)).
Proof.
  intros H0 H1 Ha Ht. apply simplify_of_rules.
  rewrite (simplify_rules_two _ _ _ _ H0), Ht, Ha, H1. reflexivity.
Qed.

End RuleFacts.

(** C4, as the code has it: the answer rule applies when the label holds the
    answer marker, there is a second argument, and the tool-result rule,
    which comes first, does not apply.  Then, if the text holds the call
    marker, the parameters marker and the terminator, the message is the
    label followed by what comes after the last terminator, trimmed;
    otherwise it is the label followed by the text. *)
Theorem answer_rule (rt : runtime) (level : pystr) (a0 a1 : value)
    (rest : list value) (head text : pystr) :
  py_str rt a0 = Ret head ->
  py_str rt a1 = Ret text ->
  contains ANSWER_MARK head = true ->
  contains TOOL_MARK head && contains RESULT_MARK head = false ->
  (contains CALL_MARK text = true ->
   contains PARAM_MARK text = true ->
   forall pre tail,
     text = pre ++ STOP ++ tail ->
     contains STOP tail = false ->
     exists t, trimmed tail t
               /\ _simplify_for_frontend rt level (a0 :: a1 :: rest)
                  = Ret (head ++ t))
  /\ (contains CALL_MARK text && contains PARAM_MARK text
      && contains STOP text = false ->
      _simplify_for_frontend rt level (a0 :: a1 :: rest) = Ret (head ++ text))
  /\ (text = u "调用search参数{q}。最终答案是42。" ->
      _simplify_for_frontend rt level (a0 :: a1 :: rest) = Ret (head ++ []))
  /\ (text = u "42" ->
      _simplify_for_frontend rt level (a0 :: a1 :: rest)
      = Ret (head ++ u "42")).
Proof.
  intros H0 H1 Ha Ht.
  pose proof (answer_rule_cut rt level a0 a1 rest head text H0 H1 Ha Ht) as E.
  split; [|split; [|split]].
  - intros Hc Hp pre tail -> Hs. exists (strip tail). split.
    + apply strip_trimmed.
    + rewrite E, Hc, Hp.
      change STOP with [12290%N] in *. simpl app.
      rewrite contains_char_mid, (split_last _ _ _ Hs). reflexivity.
  - intros Hf. now rewrite E, Hf.
  - intros ->. rewrite E. reflexivity.
  - intros ->. rewrite E. reflexivity.
Qed.

Lemma answer_rule_witness :
  exists t,
    trimmed (u "  答案是42 ") t
    /\ _simplify_for_frontend cpython (u "INFO")
         [VStr (u "【原子问题答案】"); VStr (u "调用search参数{q}。  答案是42 ")]
       = Ret (u "【原子问题答案】" ++ t).
Proof.
  apply (proj1 (answer_rule cpython (u "INFO") (VStr (u "【原子问题答案】"))
                  (VStr (u "调用search参数{q}。  答案是42 ")) []
                  (u "【原子问题答案】") (u "调用search参数{q}。  答案是42 ")
                  eq_refl eq_refl eq_refl eq_refl)
               eq_refl eq_refl (u "调用search参数{q}") (u "  答案是42 "));
    reflexivity.
Defined.

(** C4, counterexample: a label that holds the answer marker and both
    tool-result markers is handled by the tool-result rule; the text is then
    kept whole although it holds the call marker, the parameters marker and
    the terminator. *)
Lemma answer_rule_shadowed :
  contains ANSWER_MARK (u "【工具函数x执行结果】【原子问题答案】") = true
  /\ contains CALL_MARK (u "调用a参数b。c") = true
  /\ contains PARAM_MARK (u "调用a参数b。c") = true
  /\ u "调用a参数b。c" = u "调用a参数b" ++ STOP ++ u "c"
  /\ contains STOP (u "c") = false
  /\ _simplify_for_frontend cpython (u "INFO")
       [VStr (u "【工具函数x执行结果】【原子问题答案】"); VStr (u "调用a参数b。c")]
     = Ret (u "【工具函数x执行结果】【原子问题答案】调用a参数b。c")
  /\ _simplify_for_frontend cpython (u "INFO")
       [VStr (u "【工具函数x执行结果】【原子问题答案】"); VStr (u "调用a参数b。c")]
     <> Ret (u "【工具函数x执行结果】【原子问题答案】c").
Proof. vm_compute. repeat split; discriminate. Qed.

Section GenericRule.

Variable rt : runtime.

Lemma simplify_rules_generic (a0 : value) (rest : list value) (head : pystr) :
  py_str rt a0 = Ret head ->
  contains TOOL_MARK head && contains RESULT_MARK head = false ->
  contains ANSWER_MARK head = false ->
  simplify_rules rt (a0 :: rest)
  = (parts <- walk rt (a0 :: rest) ;; Ret (join (u " ") parts)).
Proof.
  intros H Ht Ha. unfold simplify_rules. rewrite label_is_str, H.
  unfold bind at 1. rewrite Ht, Ha. now destruct rest.
Qed.

End GenericRule.

(** C5, as the code has it: in the generic walk a mapping among the
    arguments adds nothing, and no pair is formed across it.  When the
    printed first argument matches neither label rule, the message is made
    of the parts of the arguments before the mapping and of those after it,
    joined by single spaces. *)
Theorem generic_walk_drops_mapping (rt : runtime) (level : pystr)
    (pre post : list value) (d : dict) :
  walk rt (pre ++ VDict d :: post)
  = (ps <- walk rt pre ;; qs <- walk rt post ;; Ret (ps ++ qs))
  /\ forall head ps qs,
       py_str rt (hd (VDict d) pre) = Ret head ->
       contains TOOL_MARK head && contains RESULT_MARK head = false ->
       contains ANSWER_MARK head = false ->
       walk rt pre = Ret ps ->
       walk rt post = Ret qs ->
       _simplify_for_frontend rt level (pre ++ VDict d :: post)
       = Ret (join (u " ") (ps ++ qs)).
Proof.
  split; [apply walk_drops_mapping|].
  intros head ps qs Hh Ht Ha Hp Hq. apply simplify_of_rules.
  assert (E : exists a0 rest, pre ++ VDict d :: post = a0 :: rest
                              /\ hd (VDict d) pre = a0).
  { destruct pre as [|a pre]; simpl; eauto. }
  destruct E as (a0 & rest & E & E0). rewrite E0 in Hh.
  rewrite E, (simplify_rules_generic rt a0 rest head Hh Ht Ha), <- E.
  rewrite walk_drops_mapping, Hp, Hq. reflexivity.
Qed.

Lemma generic_walk_drops_mapping_witness :
  _simplify_for_frontend cpython (u "INFO")
    ([VStr (u "x"); VInt 5] ++ VDict [(VStr (u "a"), VInt 1)] :: [VStr (u "y")])
  = Ret (join (u " ") ([u "x"; u "5"] ++ [u "y"])).
Proof.
  apply (proj2 (generic_walk_drops_mapping cpython (u "INFO")
                  [VStr (u "x"); VInt 5] [VStr (u "y")]
                  [(VStr (u "a"), VInt 1)]) (u "x"));
    reflexivity.
Defined.

(** C5, counterexample: a mapping passed as the first argument is printed
    to find the label; when its text holds both tool-result markers the
    message is that text, the raw serialization of the mapping. *)
Lemma mapping_label_leak :
  py_str cpython (VDict [(VStr TOOL_MARK, VStr RESULT_MARK)])
  = Ret (u "{'【工具函数': '执行结果】'}")
  /\ _simplify_for_frontend cpython (u "INFO")
       [VDict [(VStr TOOL_MARK, VStr RESULT_MARK)]]
     = Ret (u "{'【工具函数': '执行结果】'}")
  /\ contains (u "{'【工具函数': '执行结果】'}") (u "{'【工具函数': '执行结果】'}")
     = true.
Proof. vm_compute. repeat split. Qed.

(** ** The simplifier never raises *)

Section FallbackFacts.

Variable rt : runtime.

Lemma simplify_fallback_total (args : list value) :
  Forall (printable rt) args ->
  exists strs, mapM (py_str rt) args = Ret strs
               /\ simplify_fallback rt args = Ret (join (u " ") strs).
Proof.
  intros H. destruct (printable_all rt args H) as [strs E].
  exists strs. split; [exact E|]. unfold simplify_fallback. now rewrite E.
Qed.

Lemma simplify_on_error (level : pystr) (args : list value) (e : exn) :
  simplify_rules rt args = Exc e ->
  _simplify_for_frontend rt level args = simplify_fallback rt args.
Proof.
  intros H. unfold _simplify_for_frontend. rewrite H.
  destruct args; [discriminate H | reflexivity].
Qed.

Lemma simplify_total (level : pystr) (args : list value) :
  Forall (printable rt) args ->
  exists out, _simplify_for_frontend rt level args = Ret out.
Proof.
  intros H. destruct (simplify_rules rt args) as [out|e] eqn:E.
  - exists out. now apply simplify_of_rules.
  - destruct (simplify_fallback_total args H) as (strs & _ & Hf).
    exists (join (u " ") strs). now rewrite (simplify_on_error level args e E).
Qed.

End FallbackFacts.

(** C6: for every severity the simplifier returns a string on every
    argument tuple of the data model, and more generally whenever each
    argument can be printed; when the pattern rules raise, that string is
    the arguments printed and joined by single spaces; and the extractor
    returns a string payload unchanged when it does not parse. *)
Theorem simplifier_never_raises (rt : runtime) (level : pystr)
    (args : list value) :
  (forallb plain args = true ->
   exists out, _simplify_for_frontend rt level args = Ret out)
  /\ (Forall (printable rt) args ->
      (exists out, _simplify_for_frontend rt level args = Ret out)
      /\ forall e,
           simplify_rules rt args = Exc e ->
           exists strs,
             mapM (py_str rt) args = Ret strs
             /\ _simplify_for_frontend rt level args
                = Ret (join (u " ") strs))
  /\ (forall s e,
        json_loads rt s = Exc e ->
        _extract_value_from_tool_result rt (VStr s) = Ret s).
Proof.
  split; [|split].
  - intros H. apply simplify_total. rewrite forallb_forall in H.
    apply Forall_forall. intros a Ha. now apply plain_printable, H.
  - intros H. split; [now apply simplify_total|].
    intros e E.
    destruct (simplify_fallback_total rt args H) as (strs & Hs & Hf).
    exists strs. split; [exact Hs|].
    now rewrite (simplify_on_error rt level args e E).
  - intros s e E. exact (extract_unparsed rt s e E).
Qed.

Lemma simplifier_never_raises_witness :
  (exists out,
     _simplify_for_frontend cpython (u "INFO")
       [VStr (u "x"); VList [VInt 1; VNone]; VDict [(VStr (u "k"), VFloat 2.5)]]
     = Ret out)
  /\ simplify_rules cpython
       [VStr (u "【工具函数f执行结果】"); VDict [(VStr (u "result"), mute)]]
     = Exc OtherError
  /\ exists strs,
       mapM (py_str cpython)
         [VStr (u "【工具函数f执行结果】"); VDict [(VStr (u "result"), mute)]]
       = Ret strs
       /\ _simplify_for_frontend cpython (u "INFO")
            [VStr (u "【工具函数f执行结果】"); VDict [(VStr (u "result"), mute)]]
          = Ret (join (u " ") strs).
Proof.
  split; [|split].
  - apply (proj1 (simplifier_never_raises cpython (u "INFO") _)). reflexivity.
  - reflexivity.
  - apply (proj2 (proj1 (proj2 (simplifier_never_raises cpython (u "INFO")
                    [VStr (u "【工具函数f执行结果】");
                     VDict [(VStr (u "result"), mute)]]))
                    ltac:(repeat constructor; eexists; reflexivity))
             OtherError).
    reflexivity.
Defined.

(** ** The dispatcher *)

Lemma index_total (x : pystr) (l : list pystr) :
  In x l -> exists i, index x l = Ret i.
Proof.
  induction l as [|y l IH]; [intros []|]. intros H. simpl.
  destruct (Str.eqb y x) eqn:E; [now exists 0|].
  destruct H as [->|H]; [now rewrite eqb_refl in E|].
  destruct (IH H) as [i ->]. now exists (S i).
Qed.

Lemma should_log_total (a b : pystr) :
  In a LEVELS -> In b LEVELS -> exists r, should_log a b = Ret r.
Proof.
  intros Ha Hb. unfold should_log.
  destruct (index_total a LEVELS Ha) as [i ->].
  destruct (index_total b LEVELS Hb) as [j ->].
  simpl. eauto.
Qed.

Lemma forwarded_iff (level : pystr) :
  forwarded level = true <-> level = u "INFO" \/ level = u "SPECIAL".
Proof.
  unfold forwarded. rewrite orb_true_iff, !eqb_eq. tauto.
Qed.

Section DispatcherFacts.

Variable rt : runtime.
Variable e : env.

(** A completed call, effect by effect. *)
Lemma color_print_complete (g : globals) (level color : pystr)
    (args : list value) (sep end_ : pystr) (strs : list pystr)
    (message : pystr) (tr : list effect) :
  mapM (py_str rt) args = Ret strs ->
  _simplify_for_frontend rt level args = Ret message ->
  color_print rt e g level color args sep end_ = (tr, Ret tt) ->
  tr = push_write g level color message
       ++ console_write e g level color strs sep end_
       ++ file_write e g level strs sep.
Proof.
  intros Hs Hm. unfold color_print. rewrite Hs, Hm.
  unfold push_write, console_write, file_write, log_line, full_line.
  unfold io_bind, lift, emit, print, append_file, io_ret.
  change (lookup (u "reset") COLORS) with (Ret (ESC ++ u "[0m")).
  destruct (forwarded level && socketio g);
    dispatch; intros H; try discriminate H;
    injection H as <-; reflexivity.
Qed.

(** The push stage comes first, and only it emits. *)
Lemma color_print_shape (g : globals) (level color : pystr)
    (args : list value) (sep end_ : pystr) (strs : list pystr)
    (message : pystr) :
  mapM (py_str rt) args = Ret strs ->
  _simplify_for_frontend rt level args = Ret message ->
  exists sinks,
    fst (color_print rt e g level color args sep end_)
    = push_write g level color message ++ sinks
    /\ forallb (fun x => negb (is_emit x)) sinks = true.
Proof.
  intros Hs Hm. unfold color_print, push_write. rewrite Hs, Hm.
  unfold io_bind, lift, emit, print, append_file, io_ret.
  destruct (forwarded level && socketio g);
    dispatch; simpl; eexists; split; try reflexivity; reflexivity.
Qed.

End DispatcherFacts.

Lemma pushes_app_sinks (p sinks : list effect) :
  forallb (fun x => negb (is_emit x)) sinks = true ->
  pushes (p ++ sinks) = pushes p.
Proof.
  intros H. unfold pushes. rewrite filter_app.
  assert (E : filter is_emit sinks = []).
  { induction sinks as [|x sinks IH]; [reflexivity|].
    simpl in *. apply andb_prop in H as [Hx Hr].
    destruct (is_emit x); [discriminate | now apply IH]. }
  rewrite E. apply app_nil_r.
Qed.

Lemma pushes_push_write (g : globals) (level color message : pystr) :
  pushes (push_write g level color message)
  = push_write g level color message.
Proof. unfold push_write. now destruct (forwarded level && socketio g). Qed.

Lemma sink_writes_push_write (g : globals) (level color message : pystr)
    (t : list effect) :
  sink_writes (push_write g level color message ++ t) = sink_writes t.
Proof. unfold push_write. now destruct (forwarded level && socketio g). Qed.

Lemma sink_writes_sinks (e : env) (g : globals) (level color : pystr)
    (strs : list pystr) (sep end_ : pystr) :
  sink_writes (console_write e g level color strs sep end_
               ++ file_write e g level strs sep)
  = console_write e g level color strs sep end_
    ++ file_write e g level strs sep.
Proof.
  unfold console_write, file_write, sink_writes. dispatch; reflexivity.
Qed.

(** C2: on printable arguments a log call sends exactly one push event,
    carrying the severity, the simplified message and the color, when a
    channel is configured and the severity is INFO or SPECIAL, and none
    otherwise; the event precedes every write to the console and to the
    file, whatever the thresholds and the state of the sinks.  Under
    CPython the INFO entry point on the duration example sends one event
    with message "【工具函数duration_calculator执行结果】1149.0", and the
    DEBUG entry point sends none. *)
Theorem push_iff_forwarded :
  (forall rt e g level color args sep end_,
     Forall (printable rt) args ->
     exists message sinks,
       _simplify_for_frontend rt level args = Ret message
       /\ fst (color_print rt e g level color args sep end_)
          = (if forwarded level && socketio g
             then [Emit (u "log_message")
                     {| ev_level := level; ev_message := message;
                        ev_color := color |}]
             else []) ++ sinks
       /\ forallb (fun x => negb (is_emit x)) sinks = true)
  /\ (forall level,
        forwarded level = true <-> level = u "INFO" \/ level = u "SPECIAL")
  /\ (forall e g,
        pushes (fst (info cpython e (with_socketio true g)
                       [VStr DURATION_LABEL; VStr DURATION_PAYLOAD]
                       (u " ") NEWLINE))
        = [Emit (u "log_message")
             {| ev_level := u "INFO";
                ev_message :=
                  u "【工具函数duration_calculator执行结果】1149.0";
                ev_color := u "blue" |}]
        /\ pushes (fst (debug cpython e (with_socketio true g)
                          [VStr DURATION_LABEL; VStr DURATION_PAYLOAD]
                          (u " ") NEWLINE))
           = []).
Proof.
  assert (G : forall rt e g level color args sep end_,
             Forall (printable rt) args ->
             exists message sinks,
               _simplify_for_frontend rt level args = Ret message
               /\ fst (color_print rt e g level color args sep end_)
                  = push_write g level color message ++ sinks
               /\ forallb (fun x => negb (is_emit x)) sinks = true).
  { intros rt e g level color args sep end_ H.
    destruct (printable_all rt args H) as [strs Hs].
    destruct (simplify_total rt level args H) as [message Hm].
    destruct (color_print_shape rt e g level color args sep end_
                strs message Hs Hm) as (sinks & E & Hk).
    now exists message, sinks. }
  split; [exact G|]. split; [exact forwarded_iff|].
  intros e g.
  assert (P : Forall (printable cpython)
                [VStr DURATION_LABEL; VStr DURATION_PAYLOAD]).
  { repeat constructor; eexists; reflexivity. }
  split.
  - destruct (G cpython e (with_socketio true g) (u "INFO") (u "blue")
                _ (u " ") NEWLINE P) as (m & sinks & Hm & E & Hk).
    unfold info. rewrite E, (pushes_app_sinks _ _ Hk).
    vm_compute in Hm. injection Hm as <-. reflexivity.
  - destruct (G cpython e (with_socketio true g) (u "DEBUG") (u "grey")
                _ (u " ") NEWLINE P) as (m & sinks & Hm & E & Hk).
    unfold debug. rewrite E, (pushes_app_sinks _ _ Hk). reflexivity.
Qed.

Lemma push_iff_forwarded_witness :
  exists message sinks,
    _simplify_for_frontend cpython (u "SPECIAL")
      [VStr (u "done"); VList [VInt 1; VInt 2]] = Ret message
    /\ fst (color_print cpython
              {| now := u "2025-01-02 03:04:05.678901"; emit_fault := None;
                 stdout_fault := fun _ => None; open_fault := fun _ => None;
                 write_fault := fun _ _ => None |}
              {| socketio := true; console_level := u "DEBUG";
                 file_level := u "TRACE"; log_file_path := None |}
              (u "SPECIAL") (u "cyan")
              [VStr (u "done"); VList [VInt 1; VInt 2]] (u " ") NEWLINE)
       = (if forwarded (u "SPECIAL") && true
          then [Emit (u "log_message")
                  {| ev_level := u "SPECIAL"; ev_message := message;
                     ev_color := u "cyan" |}]
          else []) ++ sinks
    /\ forallb (fun x => negb (is_emit x)) sinks = true.
Proof.
  apply (proj1 push_iff_forwarded cpython).
  repeat constructor; eexists; reflexivity.
Defined.

Lemma sinks_no_emit (e : env) (g : globals) (level color : pystr)
    (strs : list pystr) (sep end_ : pystr) :
  forallb (fun x => negb (is_emit x))
    (console_write e g level color strs sep end_
     ++ file_write e g level strs sep) = true.
Proof. unfold console_write, file_write. dispatch; reflexivity. Qed.

Lemma color_print_prefix (rt : runtime) (e : env) (g : globals)
    (level color : pystr) (args : list value) (sep end_ : pystr)
    (strs : list pystr) (message : pystr) :
  mapM (py_str rt) args = Ret strs ->
  _simplify_for_frontend rt level args = Ret message ->
  exists rest,
    push_write g level color message
    ++ console_write e g level color strs sep end_
    ++ file_write e g level strs sep
    = fst (color_print rt e g level color args sep end_) ++ rest.
Proof.
  intros Hs Hm. unfold color_print. rewrite Hs, Hm.
  unfold push_write, console_write, file_write, log_line, full_line.
  unfold io_bind, lift, emit, print, append_file, io_ret.
  change (lookup (u "reset") COLORS) with (Ret (ESC ++ u "[0m")).
  destruct (forwarded level && socketio g);
    dispatch; simpl; eexists; reflexivity.
Qed.

(** With a push stage that goes through, the channel setting changes
    neither what is written nor how the call ends. *)
Lemma color_print_without_channel (rt : runtime) (e : env) (g : globals)
    (level color : pystr) (args : list value) (sep end_ : pystr) :
  push_ok e g level ->
  sink_writes (fst (color_print rt e g level color args sep end_))
  = sink_writes
      (fst (color_print rt e (with_socketio false g) level color args sep
              end_))
  /\ snd (color_print rt e g level color args sep end_)
     = snd (color_print rt e (with_socketio false g) level color args sep
              end_).
Proof.
  intros Hok. unfold push_ok in Hok. unfold color_print.
  destruct (mapM (py_str rt) args) as [strs|x] eqn:Hs;
    [|split; reflexivity].
  assert (P : Forall (printable rt) args) by exact (mapM_ret_inv _ _ _ Hs).
  destruct (simplify_total rt level args P) as [message Hm]. rewrite Hm.
  simpl socketio. simpl console_level. simpl file_level.
  simpl log_file_path. rewrite andb_false_r.
  unfold io_bind, lift, emit, print, append_file, io_ret.
  change (lookup (u "reset") COLORS) with (Ret (ESC ++ u "[0m")).
  destruct (forwarded level && socketio g);
    [rewrite (Hok eq_refl)|]; dispatch; split; reflexivity.
Qed.

(** C9, as the code has it: on every log call whose push stage does not
    fail (no channel is set, the severity is not forwarded, or the emit
    returns), what the console and the file receive is the full line
    (timestamp, bracketed severity, the printed arguments joined by the
    separator), each according to its threshold and as far as the call
    gets, both writes when it completes; what they receive, and how the
    call ends, is the same with and without a push channel and does not
    involve the simplified message, which goes to the push channel only,
    and only for a forwarded severity. *)
Theorem sinks_unaffected_by_push (rt : runtime) (e : env) (g : globals)
    (level color : pystr) (args : list value) (sep end_ : pystr) :
  push_ok e g level ->
  (sink_writes (fst (color_print rt e g level color args sep end_))
   = sink_writes
       (fst (color_print rt e (with_socketio false g) level color args sep
               end_))
   /\ snd (color_print rt e g level color args sep end_)
      = snd (color_print rt e (with_socketio false g) level color args sep
               end_))
  /\ forall strs,
       mapM (py_str rt) args = Ret strs ->
       full_line e level strs sep
       = drop_last3 (now e) ++ u " [" ++ level ++ u "] " ++ join sep strs
       /\ (exists rest,
             console_write e g level color strs sep end_
             ++ file_write e g level strs sep
             = sink_writes (fst (color_print rt e g level color args sep end_))
               ++ rest)
       /\ (snd (color_print rt e g level color args sep end_) = Ret tt ->
           sink_writes (fst (color_print rt e g level color args sep end_))
           = console_write e g level color strs sep end_
             ++ file_write e g level strs sep)
       /\ exists message,
            _simplify_for_frontend rt level args = Ret message
            /\ pushes (fst (color_print rt e g level color args sep end_))
               = push_write g level color message.
Proof.
  intros Hok. split; [now apply color_print_without_channel|].
  intros strs Hs. split; [reflexivity|].
  assert (P : Forall (printable rt) args) by exact (mapM_ret_inv _ _ _ Hs).
  destruct (simplify_total rt level args P) as [message Hm].
  split; [|split].
  - destruct (color_print_prefix rt e g level color args sep end_ strs message
                Hs Hm) as [rest E].
    exists (sink_writes rest).
    apply (f_equal sink_writes) in E.
    rewrite sink_writes_push_write, sink_writes_sinks in E. rewrite E.
    unfold sink_writes. apply filter_app.
  - intros Hc.
    destruct (color_print rt e g level color args sep end_) as [tr r] eqn:E.
    simpl in Hc. subst r.
    pose proof (color_print_complete rt e g level color args sep end_
                  strs message tr Hs Hm E) as ->.
    simpl fst. now rewrite sink_writes_push_write, sink_writes_sinks.
  - exists message. split; [exact Hm|].
    destruct (color_print_shape rt e g level color args sep end_ strs message
                Hs Hm) as (sinks & -> & Hk).
    now rewrite (pushes_app_sinks _ _ Hk), pushes_push_write.
Qed.

Lemma sinks_unaffected_by_push_witness :
  sink_writes
    (fst (color_print cpython BROKEN_DISK (with_socketio true STARTED)
            (u "INFO") (u "blue") [VStr DURATION_LABEL; VStr DURATION_PAYLOAD]
            (u " ") NEWLINE))
  = sink_writes
      (fst (color_print cpython BROKEN_DISK
              (with_socketio false (with_socketio true STARTED))
              (u "INFO") (u "blue")
              [VStr DURATION_LABEL; VStr DURATION_PAYLOAD] (u " ") NEWLINE))
  /\ snd (color_print cpython BROKEN_DISK (with_socketio true STARTED)
            (u "INFO") (u "blue") [VStr DURATION_LABEL; VStr DURATION_PAYLOAD]
            (u " ") NEWLINE)
     = snd (color_print cpython BROKEN_DISK
              (with_socketio false (with_socketio true STARTED))
              (u "INFO") (u "blue")
              [VStr DURATION_LABEL; VStr DURATION_PAYLOAD] (u " ") NEWLINE).
Proof.
  assert (H : push_ok BROKEN_DISK (with_socketio true STARTED) (u "INFO")).
  { intros _. reflexivity. }
  exact (proj1 (sinks_unaffected_by_push cpython BROKEN_DISK
                  (with_socketio true STARTED) (u "INFO") (u "blue")
                  [VStr DURATION_LABEL; VStr DURATION_PAYLOAD] (u " ") NEWLINE
                  H)).
Defined.

(** C9, counterexample: with a channel that rejects the event, the INFO
    entry point ends at the push and neither sink receives the line, while
    the same call without a channel writes the console line and the file
    line. *)
Lemma failed_push_skips_sinks :
  info cpython BROKEN_CHANNEL (with_socketio true STARTED)
    [VStr (u "step"); VInt 2] (u " ") NEWLINE
  = ([Emit (u "log_message")
        {| ev_level := u "INFO"; ev_message := u "step 2";
           ev_color := u "blue" |}],
     Exc OtherError)
  /\ sink_writes
       (fst (info cpython BROKEN_CHANNEL (with_socketio true STARTED)
               [VStr (u "step"); VInt 2] (u " ") NEWLINE))
     = []
  /\ info cpython BROKEN_CHANNEL (with_socketio false STARTED)
       [VStr (u "step"); VInt 2] (u " ") NEWLINE
     = ([StdoutWrite (ESC ++ u "[94m2025-01-02 03:04:05.678 [INFO] step 2"
                      ++ ESC ++ u "[0m" ++ NEWLINE);
         FileAppend (u "devlop_output/logs/log_2025-01-02 03-04-05.log")
           (u "2025-01-02 03:04:05.678 [INFO] step 2" ++ NEWLINE)],
        Ret tt).
Proof. split; [|split]; vm_compute; reflexivity. Qed.

(** C1, as the code has it: a failure of a sink is not handled.  When the
    console write fails, or the log file cannot be opened or written, the
    log call ends with that exception, which reaches the caller; the call
    completes when the push, the console and the file stages all go
    through. *)
Theorem sink_failure_propagates (rt : runtime) (e : env) (g : globals)
    (level color : pystr) (args : list value) (sep end_ : pystr)
    (strs : list pystr) :
  mapM (py_str rt) args = Ret strs ->
  push_ok e g level ->
  (forall c x,
     should_log level (console_level g) = Ret true ->
     lookup color COLORS = Ret c ->
     stdout_fault e ((c ++ full_line e level strs sep ++ ESC ++ u "[0m")
                     ++ end_) = Some x ->
     snd (color_print rt e g level color args sep end_) = Exc x)
  /\ (forall path x,
        console_ok e g level color strs sep end_ ->
        log_file_path g = Some path ->
        path <> [] ->
        should_log level (file_level g) = Ret true ->
        open_fault e path = Some x
        \/ (open_fault e path = None
            /\ write_fault e path
                 (full_line e level strs sep ++ NEWLINE) = Some x) ->
        snd (color_print rt e g level color args sep end_) = Exc x)
  /\ (console_ok e g level color strs sep end_ ->
      file_ok e g level strs sep ->
      snd (color_print rt e g level color args sep end_) = Ret tt).
Proof.
  intros Hs Hp.
  assert (P : Forall (printable rt) args) by exact (mapM_ret_inv _ _ _ Hs).
  destruct (simplify_total rt level args P) as [message Hm].
  unfold push_ok in Hp. unfold color_print.
  rewrite Hs, Hm.
  unfold log_line, full_line, io_bind, lift, emit, print, append_file, io_ret.
  change (lookup (u "reset") COLORS) with (Ret (ESC ++ u "[0m")).
  assert (Hc1 : forall c' : pystr,
             console_ok e g level color strs sep end_ ->
             should_log level (console_level g) = Ret true ->
             lookup color COLORS = Ret c' ->
             stdout_fault e ((c' ++ full_line e level strs sep ++ ESC
                              ++ u "[0m") ++ end_) = None).
  { unfold console_ok. intros c' H E1 E2. rewrite E1 in H.
    destruct H as (c & E & H). congruence. }
  unfold console_ok, file_ok, full_line in *.
  destruct (forwarded level && socketio g);
    [rewrite (Hp eq_refl)|]; clear Hp; (split; [|split]).
  all: try (intros c x -> -> ->; reflexivity).
  all: try (intros [|c path] x Hc -> Hne; [congruence|]; intros -> Hf;
            destruct (should_log level (console_level g)) as [[|]|];
            [destruct Hc as (c' & -> & ->) | | destruct Hc]; cbv beta iota;
            (destruct Hf as [->|[-> ->]]; reflexivity)).
  all: intros Hc Hf;
    (destruct (should_log level (console_level g)) as [[|]|];
     [destruct Hc as (c' & -> & ->) | | destruct Hc]; cbv beta iota;
     (destruct (log_file_path g) as [[|c path]|]; [reflexivity| |reflexivity];
      destruct (should_log level (file_level g)) as [[|]|];
      [destruct Hf as [-> ->] | | destruct Hf]; reflexivity)).
Qed.

Lemma sink_failure_propagates_witness :
  snd (color_print cpython BROKEN_DISK STARTED (u "WARNING") (u "yellow")
         [VStr (u "low space"); VInt 3] (u " ") NEWLINE)
  = Exc OSError.
Proof.
  apply (proj1 (proj2 (sink_failure_propagates cpython BROKEN_DISK STARTED
                         (u "WARNING") (u "yellow")
                         [VStr (u "low space"); VInt 3] (u " ") NEWLINE
                         [u "low space"; u "3"] eq_refl
                         ltac:(discriminate)))
           (u "devlop_output/logs/log_2025-01-02 03-04-05.log")).
  - exists (ESC ++ u "[93m"). split; reflexivity.
  - reflexivity.
  - discriminate.
  - reflexivity.
  - left. reflexivity.
Defined.

(** C1, counterexample: the ERROR entry point, with the log file impossible
    to open, writes the console line and then raises [OSError] to its
    caller; with the console impossible to write it raises before the file
    is touched. *)
Lemma sink_failure_reaches_caller :
  snd (error cpython BROKEN_DISK STARTED [VStr (u "disk full")] (u " ") NEWLINE)
  = Exc OSError
  /\ error cpython BROKEN_CONSOLE STARTED [VStr (u "disk full")] (u " ") NEWLINE
     = ([], Exc OSError).
Proof. split; vm_compute; reflexivity. Qed.

(** ** Sample runs under CPython *)

Example run_pairing :
  _simplify_for_frontend cpython (u "INFO")
    [VStr (u "【候选表】"); VList [VInt 1; VStr (u "a"); VFloat 2.5]]
  = Ret (u "【候选表】1，a，2.5").
Proof. reflexivity. Qed.

Example run_scalars :
  _simplify_for_frontend cpython (u "INFO")
    [VFloat 3.14; VNone; VBool true; VDict []; VStr (u "x")]
  = Ret (u "3.14 True x").
Proof. reflexivity. Qed.

Example run_tool_mapping :
  _simplify_for_frontend cpython (u "INFO")
    [VStr (u "【工具函数count执行结果】");
     VDict [(VStr (u "rows_sum"), VInt 42); (VStr (u "label"), VStr (u "x"))]]
  = Ret (u "【工具函数count执行结果】42").
Proof. reflexivity. Qed.

Example run_tool_text :
  _simplify_for_frontend cpython (u "INFO")
    [VStr DURATION_LABEL; VStr DURATION_PAYLOAD]
  = Ret (u "【工具函数duration_calculator执行结果】1149.0").
Proof. vm_compute. reflexivity. Qed.

Example run_info :
  info cpython HEALTHY (with_socketio true STARTED)
    [VStr (u "step"); VInt 2] (u " ") NEWLINE
  = ([Emit (u "log_message")
        {| ev_level := u "INFO"; ev_message := u "step 2";
           ev_color := u "blue" |};
      StdoutWrite (ESC ++ u "[94m2025-01-02 03:04:05.678 [INFO] step 2"
                   ++ ESC ++ u "[0m" ++ NEWLINE);
      FileAppend (u "devlop_output/logs/log_2025-01-02 03-04-05.log")
        (u "2025-01-02 03:04:05.678 [INFO] step 2" ++ NEWLINE)],
     Ret tt).
Proof. vm_compute. reflexivity. Qed.

Example run_unprintable :
  _simplify_for_frontend cpython (u "INFO")
    [VObj {| obj_str := Exc OtherError; obj_repr := Exc OtherError |}]
  = Exc OtherError.
Proof. reflexivity. Qed.

(** * Further properties *)

(** ** The level registry as an order *)

Lemma index_nth (x : pystr) (l : list pystr) (i : nat) :
  index x l = Ret i -> nth_error l i = Some x.
Proof.
  revert i; induction l as [|y l IH]; intros i H; [discriminate H|].
  simpl in H. destruct (Str.eqb y x) eqn:E.
  - injection H as <-. apply eqb_eq in E. now subst.
  - destruct (index x l) as [j|]; [|discriminate H].
    injection H as <-. now apply IH.
Qed.

Lemma index_exc (x : pystr) (l : list pystr) (e : exn) :
  index x l = Exc e -> e = ValueError /\ ~ In x l.
Proof.
  induction l as [|y l IH]; simpl.
  - intros H. injection H as <-. tauto.
  - destruct (Str.eqb y x) eqn:E; [discriminate|].
    destruct (index x l) as [j|e'] eqn:E'; [discriminate|].
    intros H. injection H as <-. destruct (IH eq_refl) as [-> Hn].
    split; [reflexivity|]. intros [->|Hin]; [|tauto].
    now rewrite eqb_refl in E.
Qed.

(** X1: [should_log] returns exactly when both names are severities, and
    raises [ValueError] otherwise. *)
Theorem should_log_unknown (a b : pystr) :
  (In a LEVELS /\ In b LEVELS <-> exists r, should_log a b = Ret r)
  /\ (~ (In a LEVELS /\ In b LEVELS) <-> should_log a b = Exc ValueError).
Proof.
  unfold should_log.
  destruct (index a LEVELS) as [i|x] eqn:Ea.
  - assert (Ha : In a LEVELS) by (eapply nth_error_In, index_nth, Ea).
    destruct (index b LEVELS) as [j|y] eqn:Eb; cbn [bind].
    + assert (Hb : In b LEVELS) by (eapply nth_error_In, index_nth, Eb).
      split; split.
      * eauto.
      * tauto.
      * tauto.
      * intros H; discriminate H.
    + destruct (index_exc _ _ _ Eb) as [-> Hb].
      split; split.
      * tauto.
      * intros [r H]; discriminate H.
      * reflexivity.
      * tauto.
  - destruct (index_exc _ _ _ Ea) as [-> Ha]. cbn [bind].
    split; split.
    + tauto.
    + intros [r H]; discriminate H.
    + reflexivity.
    + tauto.
Qed.

Lemma should_log_ranks (a b : pystr) :
  In a LEVELS -> In b LEVELS ->
  exists i j,
    nth_error LEVELS i = Some a /\ nth_error LEVELS j = Some b
    /\ should_log a b = Ret (j <=? i) /\ should_log b a = Ret (i <=? j).
Proof.
  intros Ha Hb.
  destruct (index_total a LEVELS Ha) as [i Ei].
  destruct (index_total b LEVELS Hb) as [j Ej].
  exists i, j. unfold should_log. rewrite Ei, Ej.
  repeat split; auto using index_nth.
Qed.

(** X2: on the seven severities [should_log] is a total order: every level
    passes its own threshold, passing is transitive, two levels that pass
    each other are the same, and of two levels one passes the other. *)
Theorem should_log_order (a b c : pystr) :
  In a LEVELS -> In b LEVELS -> In c LEVELS ->
  should_log a a = Ret true
  /\ (should_log a b = Ret true -> should_log b c = Ret true ->
      should_log a c = Ret true)
  /\ (should_log a b = Ret true -> should_log b a = Ret true -> a = b)
  /\ (should_log a b = Ret true \/ should_log b a = Ret true).
Proof.
  intros Ha Hb Hc.
  destruct (should_log_ranks a a Ha Ha) as (i & i' & Hi & Hi' & Eaa & _).
  destruct (should_log_ranks a b Ha Hb) as (i1 & j & Hi1 & Hj & Eab & Eba).
  destruct (should_log_ranks b c Hb Hc) as (j1 & k & Hj1 & Hk & Ebc & _).
  destruct (should_log_ranks a c Ha Hc) as (i2 & k1 & Hi2 & Hk1 & Eac & _).
  assert (U : forall x n m, nth_error LEVELS n = Some x ->
                            nth_error LEVELS m = Some x -> n = m).
  { intros x n m Hn Hm.
    assert (ND : NoDup LEVELS).
    { repeat constructor; simpl; intuition discriminate. }
    apply (proj1 (NoDup_nth_error LEVELS) ND).
    - apply nth_error_Some. congruence.
    - congruence. }
  pose proof (U _ _ _ Hi Hi'). pose proof (U _ _ _ Hi Hi1).
  pose proof (U _ _ _ Hi Hi2). pose proof (U _ _ _ Hj Hj1).
  pose proof (U _ _ _ Hk Hk1). subst.
  rewrite Eaa, Eab, Eba, Ebc, Eac. repeat split.
  - f_equal. apply Nat.leb_refl.
  - intros H1 H2. injection H1 as H1. injection H2 as H2. f_equal.
    apply Nat.leb_le in H1, H2. apply Nat.leb_le. lia.
  - intros H1 H2. injection H1 as H1. injection H2 as H2.
    apply Nat.leb_le in H1, H2. assert (j1 = i2) by lia. subst. congruence.
  - destruct (Nat.leb_spec j1 i2); [now left|].
    right. f_equal. apply Nat.leb_le. lia.
Qed.

Lemma should_log_order_witness :
  should_log (u "ERROR") (u "ERROR") = Ret true
  /\ (should_log (u "ERROR") (u "INFO") = Ret true ->
      should_log (u "INFO") (u "DEBUG") = Ret true ->
      should_log (u "ERROR") (u "DEBUG") = Ret true)
  /\ (should_log (u "ERROR") (u "INFO") = Ret true ->
      should_log (u "INFO") (u "ERROR") = Ret true -> u "ERROR" = u "INFO")
  /\ (should_log (u "ERROR") (u "INFO") = Ret true
      \/ should_log (u "INFO") (u "ERROR") = Ret true).
Proof.
  apply (should_log_order (u "ERROR") (u "INFO") (u "DEBUG"));
    simpl; tauto.
Defined.

(** ** Log calls that go wrong *)

Lemma mapM_first_failure {A B} (f : A -> res B) (pre post : list A) (a : A)
    (x : exn) :
  Forall (fun y => exists z, f y = Ret z) pre ->
  f a = Exc x ->
  mapM f (pre ++ a :: post) = Exc x.
Proof.
  intros Hp Ha. induction Hp as [|y pre [z Hz] _ IH]; simpl.
  - now rewrite Ha.
  - now rewrite Hz, IH.
Qed.

(** X3: when printing an argument raises, the log call raises that
    exception (the one of the first such argument) before anything is
    pushed or written. *)
Theorem unprintable_argument_stops_call (rt : runtime) (e : env) (g : globals)
    (level color : pystr) (pre post : list value) (a : value)
    (sep end_ : pystr) (x : exn) :
  Forall (printable rt) pre ->
  py_str rt a = Exc x ->
  color_print rt e g level color (pre ++ a :: post) sep end_ = ([], Exc x).
Proof.
  intros Hp Ha. unfold color_print.
  now rewrite (mapM_first_failure (py_str rt) pre post a x Hp Ha).
Qed.

Lemma unprintable_argument_stops_call_witness :
  color_print cpython HEALTHY (with_socketio true STARTED) (u "INFO")
    (u "blue") ([VStr (u "state"); VInt 3] ++ mute :: [VStr (u "tail")])
    (u " ") NEWLINE
  = ([], Exc OtherError).
Proof.
  apply unprintable_argument_stops_call.
  - repeat constructor; eexists; reflexivity.
  - reflexivity.
Defined.

Lemma forwarded_is_level (level : pystr) :
  forwarded level = true -> In level LEVELS.
Proof.
  intros H. apply forwarded_iff in H as [->| ->]; simpl; tauto.
Qed.

Lemma should_log_not_level (a b : pystr) :
  ~ In a LEVELS -> should_log a b = Exc ValueError.
Proof.
  intros Ha. unfold should_log.
  destruct (index a LEVELS) as [i|x] eqn:E.
  - exfalso. eapply Ha, nth_error_In, index_nth, E.
  - now destruct (index_exc _ _ _ E) as [-> _].
Qed.

(** X4: [color_print] called with a name that is not a severity raises
    [ValueError]; nothing is pushed and nothing is written. *)
Theorem unknown_level_raises (rt : runtime) (e : env) (g : globals)
    (level color : pystr) (args : list value) (sep end_ : pystr) :
  ~ In level LEVELS ->
  Forall (printable rt) args ->
  color_print rt e g level color args sep end_ = ([], Exc ValueError).
Proof.
  intros Hl Hp. destruct (printable_all rt args Hp) as [strs Hs].
  unfold color_print. rewrite Hs.
  destruct (forwarded level) eqn:Ef;
    [exfalso; now apply Hl, forwarded_is_level|].
  assert (E : should_log level (console_level g) = Exc ValueError)
    by now apply should_log_not_level.
  unfold io_bind, lift, io_ret. simpl andb. cbv iota. now rewrite E.
Qed.

Lemma unknown_level_raises_witness :
  color_print cpython HEALTHY (with_socketio true STARTED) (u "NOTICE")
    (u "blue") [VStr (u "x")] (u " ") NEWLINE
  = ([], Exc ValueError).
Proof.
  apply unknown_level_raises.
  - simpl. intuition discriminate.
  - repeat constructor; eexists; reflexivity.
Defined.

Lemma lookup_exc (key : pystr) (table : list (pystr * pystr)) (x : exn) :
  lookup key table = Exc x -> x = KeyError.
Proof.
  induction table as [|[k v] table IH]; simpl.
  - intros H. now injection H.
  - destruct (Str.eqb k key); [discriminate | exact IH].
Qed.

(** X5: the color is looked up only when the console threshold lets the
    level through.  With a color that is not in [COLORS] the call then
    raises [KeyError] after the push and writes nothing; when the threshold
    holds the level back, the color changes neither the outcome of the call
    nor what is written. *)
Theorem unknown_color (rt : runtime) (e : env) (g : globals)
    (level : pystr) (args : list value) (sep end_ : pystr) :
  Forall (printable rt) args ->
  (forall color x message,
     lookup color COLORS = Exc x ->
     should_log level (console_level g) = Ret true ->
     push_ok e g level ->
     _simplify_for_frontend rt level args = Ret message ->
     color_print rt e g level color args sep end_
     = (push_write g level color message, Exc KeyError))
  /\ (forall c1 c2,
        should_log level (console_level g) = Ret false ->
        snd (color_print rt e g level c1 args sep end_)
        = snd (color_print rt e g level c2 args sep end_)
        /\ sink_writes (fst (color_print rt e g level c1 args sep end_))
           = sink_writes (fst (color_print rt e g level c2 args sep end_))).
Proof.
  intros Hp. destruct (printable_all rt args Hp) as [strs Hs].
  destruct (simplify_total rt level args Hp) as [m Hm].
  split.
  - intros color x message Hc Hl Hok Hm'.
    pose proof (lookup_exc _ _ _ Hc) as ->.
    unfold color_print, push_write, push_ok in *. rewrite Hs, Hm', Hl, Hc.
    unfold io_bind, lift, emit, io_ret.
    destruct (forwarded level && socketio g);
      [rewrite (Hok eq_refl)|]; reflexivity.
  - intros c1 c2 Hl. unfold color_print. rewrite Hs, Hm, Hl.
    unfold io_bind, lift, emit, append_file, io_ret.
    destruct (forwarded level && socketio g); dispatch; split; reflexivity.
Qed.

Lemma unknown_color_witness :
  color_print cpython HEALTHY (with_socketio true STARTED) (u "INFO")
    (u "purple") [VStr (u "x")] (u " ") NEWLINE
  = (push_write (with_socketio true STARTED) (u "INFO") (u "purple") (u "x"),
     Exc KeyError).
Proof.
  apply (proj1 (unknown_color cpython HEALTHY (with_socketio true STARTED)
                  (u "INFO") [VStr (u "x")] (u " ") NEWLINE
                  ltac:(repeat constructor; eexists; reflexivity))
           (u "purple") KeyError (u "x")).
  - reflexivity.
  - reflexivity.
  - intros _. reflexivity.
  - reflexivity.
Defined.

(** X6: before a log file is set (the path is [None] or empty) a log call
    never writes a file and never consults the file threshold: the call
    does the same whatever that threshold is. *)
Theorem no_log_file (rt : runtime) (e : env) (g : globals)
    (level color : pystr) (args : list value) (sep end_ : pystr) :
  log_file_path g = None \/ log_file_path g = Some [] ->
  (forall fl,
     color_print rt e (with_file_level fl g) level color args sep end_
     = color_print rt e g level color args sep end_)
  /\ forall path text,
       ~ In (FileAppend path text)
            (fst (color_print rt e g level color args sep end_)).
Proof.
  intros Hf. split.
  - intros fl. unfold color_print. simpl.
    destruct Hf as [-> | ->]; reflexivity.
  - intros path text. unfold color_print.
    unfold io_bind, lift, emit, print, io_ret.
    destruct Hf as [-> | ->];
      dispatch; simpl; intuition discriminate.
Qed.

Lemma no_log_file_witness :
  color_print cpython HEALTHY (with_file_level (u "LOUD") DEFAULTS)
    (u "ERROR") (u "red") [VStr (u "x")] (u " ") NEWLINE
  = color_print cpython HEALTHY DEFAULTS (u "ERROR") (u "red")
      [VStr (u "x")] (u " ") NEWLINE.
Proof.
  apply (proj1 (no_log_file cpython HEALTHY DEFAULTS (u "ERROR") (u "red")
                  [VStr (u "x")] (u " ") NEWLINE (or_introl eq_refl))).
Defined.

(** X7: whatever happens, a log call touches its collaborators in the order
    push, console, file, each at most once: what it did is an initial part
    of what a completed call does. *)
Theorem effects_in_order (rt : runtime) (e : env) (g : globals)
    (level color : pystr) (args : list value) (sep end_ : pystr)
    (strs : list pystr) (message : pystr) :
  mapM (py_str rt) args = Ret strs ->
  _simplify_for_frontend rt level args = Ret message ->
  exists rest,
    push_write g level color message
    ++ console_write e g level color strs sep end_
    ++ file_write e g level strs sep
    = fst (color_print rt e g level color args sep end_) ++ rest.
Proof.
  intros Hs Hm. unfold color_print. rewrite Hs, Hm.
  unfold push_write, console_write, file_write, log_line, full_line.
  unfold io_bind, lift, emit, print, append_file, io_ret.
  change (lookup (u "reset") COLORS) with (Ret (ESC ++ u "[0m")).
  destruct (forwarded level && socketio g);
    dispatch; simpl; eexists; reflexivity.
Qed.

Lemma effects_in_order_witness :
  exists rest,
    push_write (with_socketio true STARTED) (u "INFO") (u "blue") (u "x")
    ++ console_write BROKEN_DISK (with_socketio true STARTED) (u "INFO")
         (u "blue") [u "x"] (u " ") NEWLINE
    ++ file_write BROKEN_DISK (with_socketio true STARTED) (u "INFO") [u "x"]
         (u " ")
    = fst (color_print cpython BROKEN_DISK (with_socketio true STARTED)
             (u "INFO") (u "blue") [VStr (u "x")] (u " ") NEWLINE) ++ rest.
Proof.
  apply effects_in_order; reflexivity.
Defined.

(** X8: the separator and the line end reach the console and the file
    only: the push events of a call are the same for any two choices. *)
Theorem push_ignores_separator (rt : runtime) (e : env) (g : globals)
    (level color : pystr) (args : list value)
    (sep end_ sep' end_' : pystr) :
  Forall (printable rt) args ->
  pushes (fst (color_print rt e g level color args sep end_))
  = pushes (fst (color_print rt e g level color args sep' end_')).
Proof.
  intros Hp. destruct (printable_all rt args Hp) as [strs Hs].
  destruct (simplify_total rt level args Hp) as [m Hm].
  destruct (color_print_shape rt e g level color args sep end_ strs m Hs Hm)
    as (s1 & -> & H1).
  destruct (color_print_shape rt e g level color args sep' end_' strs m Hs Hm)
    as (s2 & -> & H2).
  now rewrite !pushes_app_sinks.
Qed.

Lemma push_ignores_separator_witness :
  pushes (fst (color_print cpython HEALTHY (with_socketio true STARTED)
                 (u "INFO") (u "blue") [VStr (u "a"); VInt 1]
                 (u ", ") (u "")))
  = pushes (fst (color_print cpython HEALTHY (with_socketio true STARTED)
                   (u "INFO") (u "blue") [VStr (u "a"); VInt 1]
                   (u " ") NEWLINE)).
Proof.
  apply push_ignores_separator.
  repeat constructor; eexists; reflexivity.
Defined.

(** ** Configuration *)

Lemma is_level_In (x : pystr) : is_level x = true <-> In x LEVELS.
Proof.
  unfold is_level. rewrite existsb_exists. split.
  - intros (y & Hy & E). apply eqb_eq in E. now subst.
  - intros H. exists x. split; [exact H | apply eqb_refl].
Qed.

Lemma configured_valid (g : globals) :
  configured g ->
  In (console_level g) LEVELS /\ In (file_level g) LEVELS.
Proof.
  induction 1 as [|o fn cl fl g t g' _ [IH1 IH2] E|b g _ IH].
  - simpl. tauto.
  - unfold init in E. destruct (makedirs_fault o logs_path); [discriminate E|].
    injection E as _ <-. simpl. split.
    + destruct (is_level cl) eqn:L; [now apply is_level_In | exact IH1].
    + destruct (is_level fl) eqn:L; [now apply is_level_In | exact IH2].
  - exact IH.
Qed.

(** X9: however the logger was configured, the two thresholds are
    severities: [init] keeps a threshold it is given only when it is one of
    the seven names, and leaves the previous one in place otherwise.  So the
    threshold tests of a log call at one of the seven severities return. *)
Theorem configured_thresholds (g : globals) :
  configured g ->
  In (console_level g) LEVELS /\ In (file_level g) LEVELS
  /\ forall level,
       In level LEVELS ->
       exists to_console to_file,
         should_log level (console_level g) = Ret to_console
         /\ should_log level (file_level g) = Ret to_file.
Proof.
  intros Hg. destruct (configured_valid g Hg) as [Hc Hf].
  split; [exact Hc|]. split; [exact Hf|]. intros level Hl.
  destruct (should_log_total level _ Hl Hc) as [r1 H1].
  destruct (should_log_total level _ Hl Hf) as [r2 H2].
  now exists r1, r2.
Qed.

Lemma configured_thresholds_witness :
  In (u "ERROR") LEVELS /\ In (u "TRACE") LEVELS
  /\ forall level,
       In level LEVELS ->
       exists to_console to_file,
         should_log level (u "ERROR") = Ret to_console
         /\ should_log level (u "TRACE") = Ret to_file.
Proof.
  apply (configured_thresholds
           {| socketio := false; console_level := u "ERROR";
              file_level := u "TRACE";
              log_file_path := Some (Posix.join logs_path (u "run.log")) |}).
  apply (configured_init
           {| localtime := u "2025-01-02 03-04-05";
              makedirs_fault := fun _ => None; path_join := Posix.join |}
           (Some (u "run.log")) (u "ERROR") (u "verbose") DEFAULTS
           [MakeDirs logs_path]).
  - constructor.
  - reflexivity.
Defined.

Lemma color_print_outcome (rt : runtime) (e : env) (g : globals)
    (level color : pystr) (args : list value) (sep end_ : pystr)
    (r1 r2 : bool) (c : pystr) :
  Forall (printable rt) args ->
  should_log level (console_level g) = Ret r1 ->
  should_log level (file_level g) = Ret r2 ->
  lookup color COLORS = Ret c ->
  snd (color_print rt e g level color args sep end_) = Ret tt
  \/ exists x,
       snd (color_print rt e g level color args sep end_) = Exc x
       /\ collaborator_fault e x.
Proof.
  intros Hp H1 H2 Hc. destruct (printable_all rt args Hp) as [strs Hs].
  destruct (simplify_total rt level args Hp) as [m Hm].
  unfold color_print, collaborator_fault. rewrite Hs, Hm, H1, H2, Hc.
  unfold io_bind, lift, emit, print, append_file, io_ret.
  change (lookup (u "reset") COLORS) with (Ret (ESC ++ u "[0m")).
  destruct (forwarded level && socketio g); dispatch; simpl;
    first [ left; reflexivity
          | right; eexists; split; [reflexivity|]; solve [eauto 8] ].
Qed.

(** X10: once configured, the seven entry points raise only what a
    collaborator raised: on printable arguments a call either completes or
    ends with a fault of the push channel, of the console or of the log
    file, never with an error of the logger's own lookups; when no
    collaborator fails it completes. *)
Theorem entry_points_outcome (rt : runtime) (e : env) (g : globals)
    (args : list value) (sep end_ : pystr)
    (f : runtime -> env -> globals -> list value -> pystr -> pystr -> io unit) :
  configured g ->
  Forall (printable rt) args ->
  In f [trace; debug; info; warning; error; success; special] ->
  (snd (f rt e g args sep end_) = Ret tt
   \/ exists x,
        snd (f rt e g args sep end_) = Exc x /\ collaborator_fault e x)
  /\ ((forall x, ~ collaborator_fault e x) ->
      snd (f rt e g args sep end_) = Ret tt).
Proof.
  intros Hg Hp Hf. destruct (configured_valid g Hg) as [Hc Hfl].
  assert (O : snd (f rt e g args sep end_) = Ret tt
              \/ exists x,
                   snd (f rt e g args sep end_) = Exc x
                   /\ collaborator_fault e x).
  { simpl in Hf.
    destruct Hf as [<-|[<-|[<-|[<-|[<-|[<-|[<-|[]]]]]]]];
      match goal with
      | |- context [?h rt e g args sep end_] => unfold h
      end;
      match goal with
      | |- context [color_print rt e g ?l ?c args sep end_] =>
        destruct (should_log_total l (console_level g)) as [r1 H1];
          [simpl; tauto | exact Hc |];
        destruct (should_log_total l (file_level g)) as [r2 H2];
          [simpl; tauto | exact Hfl |];
        destruct (lookup c COLORS) as [k|] eqn:Hk; [|discriminate Hk];
        exact (color_print_outcome rt e g l c args sep end_ r1 r2 k
                 Hp H1 H2 Hk)
      end. }
  split; [exact O|]. intros Hn.
  destruct O as [O|(x & _ & Hx)]; [exact O | now destruct (Hn x)].
Qed.

Lemma entry_points_outcome_witness :
  (snd (warning cpython BROKEN_CONSOLE DEFAULTS [VStr (u "x")] (u " ") NEWLINE)
   = Ret tt
   \/ exists x,
        snd (warning cpython BROKEN_CONSOLE DEFAULTS [VStr (u "x")] (u " ")
               NEWLINE) = Exc x
        /\ collaborator_fault BROKEN_CONSOLE x)
  /\ ((forall x, ~ collaborator_fault BROKEN_CONSOLE x) ->
      snd (warning cpython BROKEN_CONSOLE DEFAULTS [VStr (u "x")] (u " ")
             NEWLINE) = Ret tt).
Proof.
  apply (entry_points_outcome cpython BROKEN_CONSOLE DEFAULTS
           [VStr (u "x")] (u " ") NEWLINE warning).
  - constructor.
  - repeat constructor; eexists; reflexivity.
  - simpl. tauto.
Defined.

Lemma init_path_nonempty (o : os_env) (log_filename : option pystr)
    (cl fl : pystr) (g g' : globals) (t : list os_effect) :
  path_join o = Posix.join ->
  init o log_filename cl fl g = (t, Ret g') ->
  exists c path, log_file_path g' = Some (c :: path).
Proof.
  intros Hj E. unfold init in E.
  destruct (makedirs_fault o logs_path); [discriminate E|].
  injection E as _ <-. simpl log_file_path. rewrite Hj.
  destruct log_filename as [[|c name]|]; try (eexists; eexists; reflexivity).
  unfold Posix.join.
  change (startswith (u "/") (c :: name)) with (N.eqb 47 c && true).
  destruct (N.eqb 47 c); eexists; eexists; reflexivity.
Qed.

(** X11: where [init] puts the log file on a POSIX system.  Without a file
    name (or with an empty one) it is [log_<local time>.log] in the log
    directory; a relative name is placed in the log directory; a name that
    starts with a slash is taken as it is, outside the log directory.  In
    every case the path is not empty, so file logging is on. *)
Theorem init_log_file (o : os_env) (log_filename : option pystr)
    (cl fl : pystr) (g g' : globals) (t : list os_effect) :
  path_join o = Posix.join ->
  init o log_filename cl fl g = (t, Ret g') ->
  (log_filename = None \/ log_filename = Some [] ->
   log_file_path g'
   = Some (u "devlop_output/logs/log_" ++ localtime o ++ u ".log"))
  /\ (forall c name,
        log_filename = Some (c :: name) ->
        log_file_path g'
        = Some (if N.eqb c 47 then c :: name
                else u "devlop_output/logs/" ++ c :: name))
  /\ exists c path, log_file_path g' = Some (c :: path).
Proof.
  intros Hj E.
  pose proof (init_path_nonempty o log_filename cl fl g g' t Hj E) as Hne.
  unfold init in E.
  destruct (makedirs_fault o logs_path); [discriminate E|].
  injection E as _ <-. simpl log_file_path in *. rewrite Hj in *.
  split; [|split].
  - intros [-> | ->]; reflexivity.
  - intros c name ->. unfold Posix.join.
    change (startswith (u "/") (c :: name)) with (N.eqb 47 c && true).
    rewrite andb_true_r, N.eqb_sym. now destruct (N.eqb c 47).
  - exact Hne.
Qed.

Lemma init_log_file_witness :
  log_file_path
    {| socketio := false; console_level := u "DEBUG"; file_level := u "TRACE";
       log_file_path := Some (u "/var/log/agent.log") |}
  = Some (if N.eqb 47 47 then u "/var/log/agent.log"
          else u "devlop_output/logs/" ++ u "/var/log/agent.log").
Proof.
  apply (proj1 (proj2 (init_log_file
                         {| localtime := u "2025-01-02 03-04-05";
                            makedirs_fault := fun _ => None;
                            path_join := Posix.join |}
                         (Some (u "/var/log/agent.log")) (u "DEBUG")
                         (u "TRACE") DEFAULTS _ [MakeDirs logs_path]
                         eq_refl eq_refl))
           47%N (u "var/log/agent.log")).
  reflexivity.
Defined.

(** X12: [init] and [init_logger_with_flask] do not disturb each other, and
    a second [init] with the same arguments changes nothing. *)
Theorem init_composes (o : os_env) (log_filename : option pystr)
    (cl fl : pystr) (g g' : globals) (t : list os_effect) (b : bool) :
  init o log_filename cl fl g = (t, Ret g') ->
  init o log_filename cl fl (init_logger_with_flask b g)
  = (t, Ret (init_logger_with_flask b g'))
  /\ init o log_filename cl fl g' = (t, Ret g')
  /\ socketio g' = socketio g.
Proof.
  intros E. unfold init in *.
  destruct (makedirs_fault o logs_path); [discriminate E|].
  injection E as <- <-. simpl. repeat split.
  destruct (is_level cl), (is_level fl); reflexivity.
Qed.

Lemma init_composes_witness :
  init {| localtime := u "2025-01-02 03-04-05";
          makedirs_fault := fun _ => None; path_join := Posix.join |}
       None (u "INFO") (u "quiet") (init_logger_with_flask true DEFAULTS)
  = ([MakeDirs logs_path],
     Ret (init_logger_with_flask true
            {| socketio := false; console_level := u "INFO";
               file_level := u "TRACE";
               log_file_path :=
                 Some (u "devlop_output/logs/log_2025-01-02 03-04-05.log") |})).
Proof.
  apply (proj1 (init_composes
                  {| localtime := u "2025-01-02 03-04-05";
                     makedirs_fault := fun _ => None;
                     path_join := Posix.join |}
                  None (u "INFO") (u "quiet") DEFAULTS _
                  [MakeDirs logs_path] true eq_refl)).
Defined.

(** ** The generic rule of the simplifier *)

Section GenericFacts.

Variable rt : runtime.

Lemma join_item_str (v : value) : join_item rt v = py_str rt v.
Proof. destruct v; reflexivity. Qed.

Lemma mapM_ext {A B} (f h : A -> res B) (l : list A) :
  (forall x, f x = h x) -> mapM f l = mapM h l.
Proof.
  intros H. induction l as [|x l IH]; simpl; [reflexivity|].
  now rewrite H, IH.
Qed.

Lemma join_list_eq (l : list value) :
  join_list rt l
  = catch (items <- mapM (py_str rt) l ;; Ret (join (u "，") items))
          (py_str rt (VList l)).
Proof.
  unfold join_list. now rewrite (mapM_ext (join_item rt) (py_str rt) l join_item_str).
Qed.

Lemma walk_scalars (args : list value) :
  Forall (fun a => is_scalar a = true) args ->
  walk rt args = mapM (py_str rt) args.
Proof.
  induction 1 as [|a rest Ha Hr IH]; [reflexivity|].
  destruct rest as [|b rest'].
  - rewrite walk_one, Ha. simpl. now destruct (py_str rt a).
  - rewrite walk_two, IH, Ha.
    assert (Hb : is_scalar b = true) by now inversion Hr.
    destruct a, b; try discriminate; reflexivity.
Qed.

End GenericFacts.

(** X13: a message made of strings and numbers only, whose first argument
    matches neither label rule, reaches the frontend as the arguments
    printed and joined by single spaces, the text the sinks print after
    the severity tag when the separator is a space. *)
Theorem scalars_as_joined (rt : runtime) (level : pystr) (a0 : value)
    (rest : list value) (head : pystr) :
  Forall (fun a => is_scalar a = true) (a0 :: rest) ->
  py_str rt a0 = Ret head ->
  contains TOOL_MARK head && contains RESULT_MARK head = false ->
  contains ANSWER_MARK head = false ->
  exists strs,
    mapM (py_str rt) (a0 :: rest) = Ret strs
    /\ _simplify_for_frontend rt level (a0 :: rest) = Ret (join (u " ") strs).
Proof.
  intros Hs Hh Ht Ha.
  assert (P : Forall (printable rt) (a0 :: rest)).
  { apply Forall_forall. intros a Hin.
    rewrite Forall_forall in Hs. specialize (Hs a Hin).
    destruct a; try discriminate Hs; eexists; reflexivity. }
  destruct (printable_all rt _ P) as [strs E]. exists strs.
  split; [exact E|]. apply simplify_of_rules.
  rewrite (simplify_rules_generic rt a0 rest head Hh Ht Ha).
  now rewrite walk_scalars, E.
Qed.

Lemma scalars_as_joined_witness :
  exists strs,
    mapM (py_str cpython) [VStr (u "step"); VInt 2; VFloat 0.5; VBool true]
    = Ret strs
    /\ _simplify_for_frontend cpython (u "INFO")
         [VStr (u "step"); VInt 2; VFloat 0.5; VBool true]
       = Ret (join (u " ") strs).
Proof.
  apply (scalars_as_joined cpython (u "INFO") (VStr (u "step"))
           [VInt 2; VFloat 0.5; VBool true] (u "step"));
    try reflexivity.
  repeat constructor.
Defined.

(** X14: a string followed by a list makes one part, the string followed
    by the items of the list printed and joined by full-width commas; when
    an item cannot be printed the whole list is printed as [str] prints it.
    The walk then goes on after the list. *)
Theorem label_list_pairing (rt : runtime) (level s : pystr)
    (l rest : list value) (parts : list pystr) :
  contains TOOL_MARK s && contains RESULT_MARK s = false ->
  contains ANSWER_MARK s = false ->
  walk rt rest = Ret parts ->
  (forall items,
     mapM (py_str rt) l = Ret items ->
     _simplify_for_frontend rt level (VStr s :: VList l :: rest)
     = Ret (join (u " ") ((s ++ join (u "，") items) :: parts)))
  /\ (forall x whole,
        mapM (py_str rt) l = Exc x ->
        py_str rt (VList l) = Ret whole ->
        _simplify_for_frontend rt level (VStr s :: VList l :: rest)
        = Ret (join (u " ") ((s ++ whole) :: parts))).
Proof.
  intros Ht Ha Hw.
  assert (E : forall j,
             join_list rt l = Ret j ->
             _simplify_for_frontend rt level (VStr s :: VList l :: rest)
             = Ret (join (u " ") ((s ++ j) :: parts))).
  { intros j Hj. apply simplify_of_rules.
    rewrite (simplify_rules_generic rt (VStr s) (VList l :: rest) s
               eq_refl Ht Ha).
    rewrite walk_two, Hj, Hw. reflexivity. }
  split.
  - intros items Hi. apply E. rewrite join_list_eq, Hi. reflexivity.
  - intros x whole Hx Hwhole. apply E. rewrite join_list_eq, Hx. exact Hwhole.
Qed.

Lemma label_list_pairing_witness :
  _simplify_for_frontend cpython (u "INFO")
    [VStr (u "【候选表】"); VList [VStr (u "a"); mute]; VInt 7]
  = Ret (join (u " ") ((u "【候选表】" ++ u "['a', <mute>]") :: [u "7"])).
Proof.
  apply (proj2 (label_list_pairing cpython (u "INFO") (u "【候选表】")
                  [VStr (u "a"); mute] [VInt 7] [u "7"]
                  eq_refl eq_refl eq_refl) OtherError);
    reflexivity.
Defined.

(** X15: the label rules look at the first two arguments only: when the
    label matches the tool-result rule or the answer rule, every argument
    after the second is left out of the message. *)
Theorem label_rules_ignore_rest (rt : runtime) (level : pystr)
    (a0 a1 : value) (rest : list value) (head : pystr) :
  py_str rt a0 = Ret head ->
  contains TOOL_MARK head && contains RESULT_MARK head = true
  \/ contains ANSWER_MARK head = true ->
  simplify_rules rt (a0 :: a1 :: rest) = simplify_rules rt [a0; a1]
  /\ forall out,
       simplify_rules rt [a0; a1] = Ret out ->
       _simplify_for_frontend rt level (a0 :: a1 :: rest) = Ret out.
Proof.
  intros Hh Hm.
  assert (E : simplify_rules rt (a0 :: a1 :: rest)
              = simplify_rules rt [a0; a1]).
  { rewrite (simplify_rules_two rt a0 a1 rest head Hh).
    rewrite (simplify_rules_two rt a0 a1 [] head Hh).
    destruct (contains TOOL_MARK head && contains RESULT_MARK head);
      [reflexivity|].
    destruct Hm as [Hm| ->]; [discriminate Hm | reflexivity]. }
  split; [exact E|]. intros out Ho. apply simplify_of_rules. now rewrite E.
Qed.

Lemma label_rules_ignore_rest_witness :
  _simplify_for_frontend cpython (u "INFO")
    [VStr (u "【原子问题答案】"); VStr (u "42"); VStr (u "more"); VInt 1]
  = Ret (u "【原子问题答案】42").
Proof.
  apply (proj2 (label_rules_ignore_rest cpython (u "INFO")
                  (VStr (u "【原子问题答案】")) (VStr (u "42"))
                  [VStr (u "more"); VInt 1] (u "【原子问题答案】")
                  eq_refl (or_intror eq_refl))).
  reflexivity.
Defined.

Section DropFacts.

Variable rt : runtime.

Ltac split_results :=
  repeat match goal with
         | |- context [walk rt ?l] => destruct (walk rt l)
         | |- context [py_str rt ?v] => destruct (py_str rt v)
         | |- context [join_list rt ?v] => destruct (join_list rt v)
         | |- context [is_scalar ?v] => destruct (is_scalar v)
         end; reflexivity.

Lemma walk_drops (v : value) (post : list value) :
  is_scalar v = false ->
  (forall l, v <> VList l) ->
  forall pre,
    walk rt (pre ++ v :: post)
    = (ps <- walk rt pre ;; qs <- walk rt post ;; Ret (ps ++ qs)).
Proof.
  intros Hv Hl.
  assert (H0 : walk rt (v :: post) = (qs <- walk rt post ;; Ret ([] ++ qs))).
  { rewrite bind_ret_r. destruct v; try discriminate Hv; reflexivity. }
  assert (H1 : forall a,
             walk rt (a :: v :: post)
             = if is_scalar a
               then p <- py_str rt a ;; parts <- walk rt (v :: post) ;;
                    Ret (p :: parts)
               else walk rt (v :: post)).
  { intros a. rewrite walk_two.
    destruct a, v; try reflexivity; try discriminate Hv.
    exfalso. now apply (Hl l). }
  assert (H : forall n pre, List.length pre <= n ->
                walk rt (pre ++ v :: post)
                = (ps <- walk rt pre ;; qs <- walk rt post ;; Ret (ps ++ qs))).
  { induction n as [|n IH]; intros pre Hn.
    - destruct pre; [exact H0 | simpl in Hn; lia].
    - destruct pre as [|a [|b pre]]; [exact H0 | |].
      + simpl app. rewrite H1, walk_one, H0. split_results.
      + simpl app. rewrite !walk_two.
        assert (IH1 := IH (b :: pre) ltac:(simpl in *; lia)).
        assert (IH2 := IH pre ltac:(simpl in *; lia)).
        simpl app in IH1.
        destruct a, b; cbv iota; rewrite ?IH1, ?IH2; split_results. }
  intros pre. now apply (H (List.length pre)).
Qed.

End DropFacts.

(** X16: the walk leaves out every argument that is neither a string nor a
    number, unless it is a list right after a string: [None], a tuple, a
    mapping or another object adds nothing wherever it stands, and so does
    a list that comes first or that follows something else than a
    string. *)
Theorem walk_drops_unpaired (rt : runtime) (v : value)
    (pre post : list value) :
  is_scalar v = false ->
  ((forall l, v <> VList l) ->
   walk rt (pre ++ v :: post)
   = (ps <- walk rt pre ;; qs <- walk rt post ;; Ret (ps ++ qs)))
  /\ (forall l, v = VList l -> walk rt (v :: post) = walk rt post)
  /\ (forall l a,
        v = VList l -> is_str a = false ->
        walk rt (a :: v :: post)
        = (ps <- walk rt [a] ;; qs <- walk rt post ;; Ret (ps ++ qs))).
Proof.
  intros Hv. split; [|split].
  - intros Hl. now apply walk_drops.
  - intros l ->. now destruct post.
  - intros l a -> Ha. rewrite walk_two, walk_one.
    assert (E : walk rt (VList l :: post) = walk rt post) by now destruct post.
    rewrite E.
    destruct a; try discriminate Ha; cbv iota;
      repeat match goal with
             | |- context [walk rt ?l] => destruct (walk rt l)
             | |- context [py_str rt ?v] => destruct (py_str rt v)
             | |- context [is_scalar ?v] => destruct (is_scalar v)
             end; reflexivity.
Qed.

Lemma walk_drops_unpaired_witness :
  walk cpython ([VStr (u "a")] ++ VTuple [VInt 1] :: [VList [VInt 2]; VInt 3])
  = (ps <- walk cpython [VStr (u "a")] ;;
     qs <- walk cpython [VList [VInt 2]; VInt 3] ;; Ret (ps ++ qs)).
Proof.
  apply (proj1 (walk_drops_unpaired cpython (VTuple [VInt 1])
                  [VStr (u "a")] [VList [VInt 2]; VInt 3] eq_refl)).
  discriminate.
Defined.

(** ** The extractor on texts and wrappers *)

(** X17: a payload given as JSON text is treated as the value it parses to:
    when that value is not a string the extractor returns what it returns
    on the value itself; when it is a string, that string is returned and
    is not parsed again. *)
Theorem extract_text_as_parsed (rt : runtime) (s : pystr) (v : value) :
  json_loads rt s = Ret v ->
  (is_str v = false ->
   _extract_value_from_tool_result rt (VStr s)
   = _extract_value_from_tool_result rt v)
  /\ (forall t,
        v = VStr t -> _extract_value_from_tool_result rt (VStr s) = Ret t).
Proof.
  intros H. rewrite (extract_parsed rt s v H). split.
  - intros Hv. destruct v; try discriminate Hv; try reflexivity.
    symmetry. apply extract_mapping.
  - intros t ->. reflexivity.
Qed.

Lemma extract_text_as_parsed_witness :
  _extract_value_from_tool_result cpython (VStr DURATION_PAYLOAD)
  = _extract_value_from_tool_result cpython
      (VDict [(VStr (u "result"), VDict [(VStr (u "by_seconds"), VFloat 1149)])]).
Proof.
  apply (proj1 (extract_text_as_parsed cpython DURATION_PAYLOAD _
                  ltac:(vm_compute; reflexivity))).
  reflexivity.
Defined.

(** X18: a mapping under [output] stands for the whole payload: whatever
    else the outer mapping holds (a [result] key of its own included) is
    ignored, and the result is the one the inner mapping gives by itself,
    provided the inner mapping has no mapping under [output] in turn (only
    one level is descended). *)
Theorem output_wrapper (rt : runtime) (d0 o : dict) :
  dict_get (u "output") d0 = Some (VDict o) ->
  (forall o', dict_get (u "output") o <> Some (VDict o')) ->
  _extract_value_from_tool_result rt (VDict d0)
  = _extract_value_from_tool_result rt (VDict o).
Proof.
  intros H0 Ho. rewrite !extract_mapping. unfold spec_mapping. rewrite H0.
  destruct (dict_get (u "output") o) as [[| | | | | | |o'|]|];
    try reflexivity.
  now destruct (Ho o').
Qed.

Lemma output_wrapper_witness :
  _extract_value_from_tool_result cpython
    (VDict [(VStr (u "result"), VInt 5);
            (VStr (u "output"), VDict [(VStr (u "rows_count"), VInt 3);
                                       (VStr (u "note"), VNone)])])
  = _extract_value_from_tool_result cpython
      (VDict [(VStr (u "rows_count"), VInt 3); (VStr (u "note"), VNone)]).
Proof.
  apply output_wrapper.
  - reflexivity.
  - discriminate.
Defined.

Lemma forallb_In {A} (f : A -> bool) (l : list A) (x : A) :
  forallb f l = true -> In x l -> f x = true.
Proof. intros H. now apply forallb_forall. Qed.

Lemma dict_get_In (name : pystr) (d : dict) (v : value) :
  dict_get name d = Some v -> exists k, In (k, v) d.
Proof.
  induction d as [|[k x] d IH]; simpl; [discriminate|].
  destruct (is_key name k).
  - intros H. injection H as ->. eauto.
  - intros H. destruct (IH H) as [k' Hk]. eauto.
Qed.

Lemma plain_entry (d : dict) (k v : value) :
  plain (VDict d) = true -> In (k, v) d -> plain v = true.
Proof.
  simpl. intros H Hin.
  apply (forallb_In _ _ _ H) in Hin. simpl in Hin.
  now apply andb_prop in Hin.
Qed.

Lemma spec_mapping_total (rt : runtime) (d0 : dict) :
  plain (VDict d0) = true -> exists out, spec_mapping rt d0 = Ret out.
Proof.
  intros Hp. unfold spec_mapping. cbv zeta.
  match goal with
  | |- context [dict_get (u "result") ?x] => set (d := x)
  end.
  assert (Hd : plain (VDict d) = true).
  { subst d. destruct (dict_get (u "output") d0) as [v|] eqn:E; [|exact Hp].
    destruct (dict_get_In _ _ _ E) as [k Hk].
    pose proof (plain_entry d0 k v Hp Hk) as Hv.
    destruct v; try exact Hp. exact Hv. }
  clearbody d.
  assert (Hin : forall k v, In (k, v) d -> printable rt v).
  { intros k v H. apply plain_printable. exact (plain_entry d k v Hd H). }
  destruct (dict_get (u "result") d) as [r|] eqn:Er.
  - destruct (dict_get_In _ _ _ Er) as [k Hk].
    pose proof (plain_entry d k r Hd Hk) as Hr.
    assert (Pr : printable rt r) by now apply plain_printable.
    unfold spec_result. destruct r as [| | | | | | |m|]; try exact Pr.
    assert (Hm : forall k v, In (k, v) m -> printable rt v).
    { intros k' v H. apply plain_printable. exact (plain_entry m k' v Hr H). }
    destruct (dict_get (u "by_seconds") m) as [v|] eqn:E1.
    { destruct (dict_get_In _ _ _ E1) as [k' H]. exact (Hm k' v H). }
    destruct (dict_get (u "seconds") m) as [v|] eqn:E2.
    { destruct (dict_get_In _ _ _ E2) as [k' H]. exact (Hm k' v H). }
    destruct (find (fun kv => is_scalar (snd kv)) m) as [[k' v]|] eqn:E3.
    { apply find_some in E3 as [H _]. exact (Hm k' v H). }
    exact Pr.
  - unfold spec_aggregate.
    assert (Hfall : exists out,
               match d with
               | [(_, v)] => py_str rt v
               | _ => py_str rt (VDict d)
               end = Ret out).
    { destruct d as [|[k v] [|kv d']];
        try (apply (plain_printable rt _ Hd)).
      apply (Hin k v). now left. }
    destruct (find (fun suffix => existsb (key_ends suffix) d) SUFFIXES)
      as [suffix|]; [|exact Hfall].
    destruct (find (key_ends suffix) d) as [[k v]|] eqn:E; [|exact Hfall].
    apply find_some in E as [H _]. exact (Hin k v H).
Qed.

(** X19: on a payload of the data model the extractor returns: a
    structured payload always, a string payload whenever the parser, if it
    accepts the text, yields a value of the data model. *)
Theorem extractor_total (rt : runtime) (payload : value) :
  plain payload = true ->
  (forall s v, payload = VStr s -> json_loads rt s = Ret v -> plain v = true) ->
  exists out, _extract_value_from_tool_result rt payload = Ret out.
Proof.
  intros Hp Hj. rewrite extract_refines.
  destruct payload; try (apply (plain_printable rt _ Hp)).
  - simpl. destruct (json_loads rt s) as [v|x] eqn:E; [|now exists s].
    pose proof (Hj s v eq_refl E) as Hv.
    destruct v; try (apply (plain_printable rt _ Hv)).
    now apply spec_mapping_total.
  - now apply spec_mapping_total.
Qed.

Lemma extractor_total_witness :
  exists out,
    _extract_value_from_tool_result cpython (VStr DURATION_PAYLOAD) = Ret out.
Proof.
  apply extractor_total; [reflexivity|].
  intros s v E. injection E as <-. vm_compute.
  intros H. injection H as <-. reflexivity.
Defined.

(** ** Routing after the default start-up *)

(** X20: after [init] with its default thresholds (console DEBUG, file
    TRACE) on a POSIX system, with no collaborator failing, a call to an
    entry point on printable arguments completes and does exactly this:
    it pushes one event when the severity is INFO or SPECIAL and a channel
    is set, it writes the colored line to the console unless the severity
    is TRACE, and it appends the line to the log file [init] chose. *)
Theorem default_routing (rt : runtime) (e : env) (o : os_env)
    (log_filename : option pystr) (g0 g : globals) (t : list os_effect)
    (args : list value) (sep end_ : pystr) (strs : list pystr)
    (message : pystr)
    (f : runtime -> env -> globals -> list value -> pystr -> pystr -> io unit)
    (level color : pystr) :
  path_join o = Posix.join ->
  init o log_filename (u "DEBUG") (u "TRACE") g0 = (t, Ret g) ->
  fault_free e ->
  mapM (py_str rt) args = Ret strs ->
  _simplify_for_frontend rt level args = Ret message ->
  In (f, (level, color)) ENTRY_TABLE ->
  exists code path,
    lookup color COLORS = Ret code
    /\ log_file_path g = Some path
    /\ f rt e g args sep end_
       = (push_write g0 level color message
          ++ (if Str.eqb level (u "TRACE") then []
              else [StdoutWrite ((code ++ full_line e level strs sep
                                  ++ ESC ++ u "[0m") ++ end_)])
          ++ [FileAppend path (full_line e level strs sep ++ NEWLINE)],
          Ret tt).
Proof.
  intros Hj Hi (He & Ho & Hop & Hw) Hs Hm Hf.
  destruct (init_path_nonempty o log_filename (u "DEBUG") (u "TRACE") g0 g t
              Hj Hi) as (c & path & Hpath).
  unfold init in Hi. destruct (makedirs_fault o logs_path); [discriminate Hi|].
  injection Hi as _ <-. simpl in Hpath.
  simpl in Hf.
  destruct Hf as [Hf|[Hf|[Hf|[Hf|[Hf|[Hf|[Hf|[]]]]]]]];
    injection Hf as <- <- <-;
    (eexists; exists (c :: path); split; [reflexivity|]; split; [exact Hpath|]);
    match goal with
    | |- ?h rt e _ args sep end_ = _ => unfold h
    end;
    unfold color_print, push_write; simpl log_file_path; rewrite Hpath;
    simpl socketio; simpl console_level; simpl file_level;
    rewrite Hs; try rewrite Hm;
    unfold io_bind, lift, emit, print, append_file, io_ret,
      log_line, full_line;
    rewrite ?He, ?Ho, ?Hop, ?Hw;
    repeat match goal with
           | |- context [should_log ?a ?b] =>
             let r := eval vm_compute in (should_log a b) in
             change (should_log a b) with r
           | |- context [lookup ?a COLORS] =>
             let r := eval vm_compute in (lookup a COLORS) in
             change (lookup a COLORS) with r
           | |- context [forwarded ?a] =>
             let r := eval vm_compute in (forwarded a) in
             change (forwarded a) with r
           | |- context [Str.eqb ?a ?b] =>
             let r := eval vm_compute in (Str.eqb a b) in
             change (Str.eqb a b) with r
           end;
    cbv beta iota; rewrite ?He, ?Ho, ?Hop, ?Hw;
    try (destruct (socketio g0); cbv beta iota; rewrite ?He);
    reflexivity.
Qed.

Lemma default_routing_witness :
  exists code path,
    lookup (u "blue") COLORS = Ret code
    /\ log_file_path
         {| socketio := true; console_level := u "DEBUG";
            file_level := u "TRACE";
            log_file_path :=
              Some (u "devlop_output/logs/log_2025-01-02 03-04-05.log") |}
       = Some path
    /\ info cpython HEALTHY
         {| socketio := true; console_level := u "DEBUG";
            file_level := u "TRACE";
            log_file_path :=
              Some (u "devlop_output/logs/log_2025-01-02 03-04-05.log") |}
         [VStr (u "ready")] (u " ") NEWLINE
       = (push_write (init_logger_with_flask true DEFAULTS) (u "INFO")
            (u "blue") (u "ready")
          ++ (if Str.eqb (u "INFO") (u "TRACE") then []
              else [StdoutWrite ((code ++ full_line HEALTHY (u "INFO")
                                            [u "ready"] (u " ")
                                  ++ ESC ++ u "[0m") ++ NEWLINE)])
          ++ [FileAppend path
                (full_line HEALTHY (u "INFO") [u "ready"] (u " ") ++ NEWLINE)],
          Ret tt).
Proof.
  apply (default_routing cpython HEALTHY
           {| localtime := u "2025-01-02 03-04-05";
              makedirs_fault := fun _ => None; path_join := Posix.join |}
           None (init_logger_with_flask true DEFAULTS) _ [MakeDirs logs_path]
           [VStr (u "ready")] (u " ") NEWLINE [u "ready"] (u "ready") info
           (u "INFO") (u "blue")).
  - reflexivity.
  - reflexivity.
  - repeat split.
  - reflexivity.
  - reflexivity.
  - simpl. tauto.
Defined.
